(** * Mergington High School activities API: roster logic of [src/app.py]

    A shallow embedding of the request handlers of [src/app.py] and of the
    start-up code that fills the [activities] dictionary, followed by the
    properties of the roster operations.

    Python values are embedded as follows.
    - A [str] is the list of its Unicode code points ([len] is the length of
      that list, [+] and f-strings are concatenation).
    - The module-level dictionary [activities] is a finite map from names to
      activity records; it is threaded through the handlers as explicit state.
    - [raise] is the [Raise] outcome of a small state-and-exception monad; the
      state at the moment of the [raise] is kept, as in Python. *)

From Stdlib Require Import NArith ZArith List Ascii String Bool Lia.
From stdpp Require Import base option list countable gmap fin_maps.

Local Open Scope N_scope.

(** ** Python strings *)

Module PyStr.

(** A code point, and a string of them.  Both are notations, so that the
    decidable equality and the countability of [list N] apply to keys. *)
Abbreviation char := N (only parsing).
Abbreviation str := (list N) (only parsing).

(** An ASCII literal of the source, character by character. *)
Definition lit (s : string) : str :=
  List.map N_of_ascii (list_ascii_of_string s).

(** Truthiness of a [str]: only the empty string is falsy. *)
Definition truthy (s : str) : bool :=
  match s with
  | [] => false
  | _ :: _ => true
  end.

(** [len(s)], as an integer. *)
Definition len (s : str) : Z := Z.of_nat (length s).

End PyStr.

Export PyStr.

(** ** Character classes of the [re] module on [str] patterns

    For a [str] pattern the classes [\w] and [\s] are the Unicode ones: [\s]
    is [str.isspace], and [\w] is [str.isalnum] or the underscore. *)

Module Unicode.

(** [str.isspace] per code point: the white-space table of the Unicode
    database, which is finite and short. *)
Definition isspace (c : char) : bool :=
  ((9 <=? c) && (c <=? 13))
  || ((28 <=? c) && (c <=? 32))
  || (c =? 133) || (c =? 160) || (c =? 5760)
  || ((8192 <=? c) && (c <=? 8202))
  || (c =? 8232) || (c =? 8233) || (c =? 8239) || (c =? 8287)
  || (c =? 12288).

Definition ascii_digit (c : char) : bool := (48 <=? c) && (c <=? 57).

Definition ascii_letter (c : char) : bool :=
  ((65 <=? c) && (c <=? 90)) || ((97 <=? c) && (c <=? 122)).

(** [str.isalnum] on the Latin-1 range (code points below 256). *)
Definition latin1_isalnum (c : char) : bool :=
  ascii_digit c || ascii_letter c
  || (c =? 170) || (c =? 178) || (c =? 179) || (c =? 181)
  || (c =? 185) || (c =? 186)
  || ((188 <=? c) && (c <=? 190))
  || ((192 <=? c) && (c <=? 214))
  || ((216 <=? c) && (c <=? 246))
  || ((248 <=? c) && (c <=? 255)).

Section Database.

(** The alphanumeric property of the Unicode database for the code points
    from 256 on: a table of the Python runtime, not of this repository. *)
Variable isalnum_beyond_latin1 : char -> bool.

Definition isalnum (c : char) : bool :=
  if c <? 256 then latin1_isalnum c else isalnum_beyond_latin1 c.

(** [\w] *)
Definition word (c : char) : bool := isalnum c || (c =? 95).

End Database.

End Unicode.

(** ** The one regular expression of the source *)

Module Re.

(** The set [[\w\s\-']] of the pattern. *)
Definition name_class (db : char -> bool) (c : char) : bool :=
  Unicode.word db c || Unicode.isspace c || (c =? 45) || (c =? 39).

(** [$] without [re.MULTILINE]: at the end of the string, or just before a
    newline that is the last character. *)
Definition at_dollar (rest : str) : bool :=
  match rest with
  | [] => true
  | [c] => c =? 10
  | _ => false
  end.

(** [cls+$] from the current position: one character of the class, then
    (greedily) more of them, or else the end anchor. *)
Fixpoint plus_dollar (cls : char -> bool) (s : str) : bool :=
  match s with
  | [] => false
  | c :: rest => cls c && (plus_dollar cls rest || at_dollar rest)
  end.

(** [re.match(r"^[\w\s\-']+$", s)], as a truth value.  [re.match] anchors at
    position 0, where [^] holds. *)
Definition match_name_pattern (db : char -> bool) (s : str) : bool :=
  plus_dollar (name_class db) s.

End Re.

(** ** Exceptions and outcomes *)

Inductive exception : Type :=
| HTTPException (status_code : Z) (detail : str)
| KeyError (key : str)
| ValueError
| OSError.

Inductive outcome (A : Type) : Type :=
| Return (a : A)
| Raise (e : exception).

Arguments Return {A} a.
Arguments Raise {A} e.

(** The [raise] statements of the source, in the order they appear. *)
Definition invalid_name_length : exception :=
  HTTPException 400 (lit "Invalid activity name length").
Definition invalid_name_characters : exception :=
  HTTPException 400 (lit "Activity name contains invalid characters").
Definition email_required : exception :=
  HTTPException 400 (lit "Email is required").
Definition activity_not_found : exception :=
  HTTPException 404 (lit "Activity not found").
Definition already_signed_up : exception :=
  HTTPException 400 (lit "Student is already signed up").
Definition not_signed_up : exception :=
  HTTPException 400 (lit "Student is not signed up for this activity").

(** The error kinds of the specification, as sets of raised exceptions. *)
Definition InvalidName (e : exception) : Prop :=
  e = invalid_name_length \/ e = invalid_name_characters.
Definition MissingEmail (e : exception) : Prop := e = email_required.
Definition ActivityNotFound (e : exception) : Prop := e = activity_not_found.
Definition AlreadySignedUp (e : exception) : Prop := e = already_signed_up.
Definition NotSignedUp (e : exception) : Prop := e = not_signed_up.

(** ** [validate_activity_name] *)

Definition validate_activity_name (db : char -> bool) (name : str) : outcome unit :=
  if negb ((1 <=? len name)%Z && (len name <=? 100)%Z) then
    Raise invalid_name_length
  else if negb (Re.match_name_pattern db name) then
    Raise invalid_name_characters
  else
    Return tt.

(** ** The activity store *)

(** One value of the [activities] dictionary.  The handlers read and write
    the ["participants"] key only, and they cope with its absence
    ([setdefault], [get] with a default): that key is optional here.  Each
    record owns its participant list: neither [json.load] nor the dictionary
    literal of the source shares a list between two records. *)
Record Activity : Type := {
  description : str;
  schedule : str;
  max_participants : Z;
  participants : option (list str)
}.

Abbreviation store := (gmap str Activity).

Definition set_participants (l : list str) (a : Activity) : Activity :=
  {| description := description a;
     schedule := schedule a;
     max_participants := max_participants a;
     participants := Some l |}.

(** The roster the handlers see for a name: the list of the record, and the
    empty list where the record has none (or where there is no record). *)
Definition roster (st : store) (name : str) : list str :=
  default [] (st !! name ≫= participants).

(** ** State and exceptions *)

Definition M (A : Type) : Type := store -> outcome A * store.

Global Instance M_ret : MRet M := fun A a st => (Return a, st).

Global Instance M_bind : MBind M := fun A B k m st =>
  match m st with
  | (Return a, st') => k a st'
  | (Raise e, st') => (Raise e, st')
  end.

Global Instance M_throw : MThrow exception M := fun A e st => (Raise e, st).

(** A call of a function that does not touch the store. *)
Definition call {A : Type} (o : outcome A) : M A := fun st => (o, st).

(** ** Python objects the handlers hold references to *)

(** The local variable [participants] refers either to the list held by the
    record of an activity, or to a list that no record holds (the default
    argument of [dict.get]). *)
Inductive list_ref : Type :=
| ParticipantsOf (activity : str)
| Fresh (l : list str).

(** [name in activities] *)
Definition contains (name : str) : M bool :=
  fun st => (Return (bool_decide (is_Some (st !! name))), st).

(** [activities[name]]: a reference to the record, which is its key. *)
Definition getitem (name : str) : M str :=
  fun st =>
    match st !! name with
    | Some _ => (Return name, st)
    | None => (Raise (KeyError name), st)
    end.

(** [activity.setdefault("participants", [])] *)
Definition setdefault_participants (activity : str) : M list_ref :=
  fun st =>
    match st !! activity with
    | Some a =>
        match participants a with
        | Some _ => (Return (ParticipantsOf activity), st)
        | None => (Return (ParticipantsOf activity),
                   <[activity := set_participants [] a]> st)
        end
    | None => (Raise (KeyError activity), st)
    end.

(** [activity.get("participants", [])] *)
Definition get_participants (activity : str) : M list_ref :=
  fun st =>
    match st !! activity with
    | Some a =>
        match participants a with
        | Some _ => (Return (ParticipantsOf activity), st)
        | None => (Return (Fresh []), st)
        end
    | None => (Raise (KeyError activity), st)
    end.

(** The list a reference points to. *)
Definition deref (r : list_ref) : M (list str) :=
  fun st =>
    match r with
    | ParticipantsOf activity =>
        match st !! activity ≫= participants with
        | Some l => (Return l, st)
        | None => (Raise (KeyError (lit "participants")), st)
        end
    | Fresh l => (Return l, st)
    end.

(** [x in participants] *)
Definition list_contains (x : str) (r : list_ref) : M bool :=
  l ← deref r; mret (bool_decide (x ∈ l)).

(** Writing a list back through a reference.  A list that no record holds is
    not part of the store, and the handlers never read it again. *)
Definition assign (r : list_ref) (l : list str) : M unit :=
  fun st =>
    match r with
    | ParticipantsOf activity =>
        (Return tt, alter (set_participants l) activity st)
    | Fresh _ => (Return tt, st)
    end.

(** [participants.append(x)] *)
Definition list_append (r : list_ref) (x : str) : M unit :=
  l ← deref r; assign r (l ++ [x]).

(** [list.remove(x)] on the value: the first item equal to [x] goes, and
    [None] stands for the [ValueError] of a list without [x]. *)
Fixpoint remove_first (x : str) (l : list str) : option (list str) :=
  match l with
  | [] => None
  | y :: l' =>
      if decide (y = x) then Some l'
      else cons y <$> remove_first x l'
  end.

(** [participants.remove(x)] *)
Definition list_remove (r : list_ref) (x : str) : M unit :=
  l ← deref r;
  match remove_first x l with
  | Some l' => assign r l'
  | None => mthrow ValueError
  end.

(** ** Start-up: filling [activities] *)

(** The dictionary literal of the [else] branch. *)
Definition embedded_defaults : store :=
  <[lit "Chess Club" :=
      {| description := lit "Learn strategies and compete in chess tournaments";
         schedule := lit "Fridays, 3:30 PM - 5:00 PM";
         max_participants := 12;
         participants :=
           Some [lit "michael@mergington.edu"; lit "daniel@mergington.edu"] |}]>
  (<[lit "Programming Class" :=
      {| description :=
           lit "Learn programming fundamentals and build software projects";
         schedule := lit "Tuesdays and Thursdays, 3:30 PM - 4:30 PM";
         max_participants := 20;
         participants :=
           Some [lit "emma@mergington.edu"; lit "sophia@mergington.edu"] |}]>
  (<[lit "Gym Class" :=
      {| description := lit "Physical education and sports activities";
         schedule := lit "Mondays, Wednesdays, Fridays, 2:00 PM - 3:00 PM";
         max_participants := 30;
         participants :=
           Some [lit "john@mergington.edu"; lit "olivia@mergington.edu"] |}]>
  ∅)).

(** What start-up finds at [activities.json]: no file, or a file on which
    [open] followed by [json.load] returns or raises.  A file that parses is
    taken to hold the layout the handlers expect, a name-to-record object. *)
Inductive activities_file : Type :=
| NoFile
| File (open_and_load : outcome store).

(** [try: body  except Exception: handler] for a body that yields a value. *)
Definition try_except {A : Type} (body : outcome A) (handler : outcome A) : outcome A :=
  match body with
  | Return a => Return a
  | Raise _ => handler
  end.

(** Lines 30 to 59: the value bound to [activities] when the module is
    imported. *)
Definition load_activities (f : activities_file) : outcome store :=
  match f with
  | File open_and_load => try_except open_and_load (Return ∅)
  | NoFile => Return embedded_defaults
  end.

(** ** The handlers *)

Record SignupRequest : Type := { email : str }.

Record response : Type := { message : str }.

(** [GET /activities] *)
Definition get_activities : M store := fun st => (Return st, st).

(** Truthiness of a parameter that defaults to [None]. *)
Definition truthy_opt (o : option str) : bool :=
  match o with
  | Some s => truthy s
  | None => false
  end.

(** [getattr(payload, "email", None)] for a body that may be missing. *)
Definition payload_email (payload : option SignupRequest) : option str :=
  email <$> payload.

(** Lines 98 to 102: the value of [user_email] after the [if]/[elif]. *)
Definition select_email (payload : option SignupRequest) (email : option str) : option str :=
  if truthy_opt (payload_email payload) then payload_email payload
  else if truthy_opt email then email
  else None.

(** The two success bodies, [{"message": f"..."}]. *)
Definition signed_up (user_email activity_name : str) : response :=
  {| message := lit "Signed up " ++ user_email ++ lit " for " ++ activity_name |}.

Definition unregistered (email activity_name : str) : response :=
  {| message := lit "Unregistered " ++ email ++ lit " from " ++ activity_name |}.

Section Handlers.

Variable db : char -> bool.

(** [POST /activities/{activity_name}/signup] *)
Definition signup_for_activity (activity_name : str)
    (payload : option SignupRequest) (email : option str) : M response :=
  call (validate_activity_name db activity_name);;
  let user_email := select_email payload email in
  if negb (truthy_opt user_email) then mthrow email_required else
  let user_email := default [] user_email in
  present ← contains activity_name;
  if negb present then mthrow activity_not_found else
  activity ← getitem activity_name;
  participants ← setdefault_participants activity;
  already ← list_contains user_email participants;
  if (already : bool) then mthrow already_signed_up else
  list_append participants user_email;;
  mret (signed_up user_email activity_name).

(** [DELETE /activities/{activity_name}/unregister] *)
Definition unregister_from_activity (activity_name : str) (email : str) : M response :=
  call (validate_activity_name db activity_name);;
  present ← contains activity_name;
  if negb present then mthrow activity_not_found else
  activity ← getitem activity_name;
  participants ← get_participants activity;
  signed_up ← list_contains email participants;
  if negb signed_up then mthrow not_signed_up else
  list_remove participants email;;
  mret (unregistered email activity_name).

End Handlers.

(** A table for the code points from 256 on under which none of them is
    alphanumeric; it serves to run the handlers on names within Latin-1. *)
Definition no_alnum_beyond_latin1 : char -> bool := fun _ => false.

(** Sample stores on which the statements below are run. *)

(** A club whose roster already exceeds its capacity. *)
Definition crowded_store : store :=
  <[lit "Chess Club" :=
      {| description := lit "Learn strategies and compete in chess tournaments";
         schedule := lit "Fridays, 3:30 PM - 5:00 PM";
         max_participants := 1;
         participants :=
           Some [lit "michael@mergington.edu"; lit "daniel@mergington.edu"] |}]> ∅.

(** A record as [json.load] yields it from a file without the
    ["participants"] key. *)
Definition art_club : Activity :=
  {| description := lit "Drawing and painting";
     schedule := lit "Mondays, 4:00 PM - 5:00 PM";
     max_participants := 15;
     participants := None |}.

Definition bare_store : store := <[lit "Art Club" := art_club]> ∅.

(** ** The set of characters the specification gives for names

    After the specification's words: ASCII letters, digits, underscore,
    white space, hyphen and apostrophe.  White space is read as the class
    [\s] of the pattern. *)
Definition spec_name_char (c : char) : bool :=
  Unicode.ascii_letter c || Unicode.ascii_digit c || (c =? 95)
  || Unicode.isspace c || (c =? 45) || (c =? 39).

Definition spec_valid_name (name : str) : bool :=
  (1 <=? len name)%Z && (len name <=? 100)%Z && forallb spec_name_char name.

(** ** The no-duplicates invariant of the store *)

Definition no_duplicates (st : store) : Prop :=
  forall name a l, st !! name = Some a -> participants a = Some l -> NoDup l.

(** ** No roster holds the empty string *)

Definition no_empty_email (st : store) : Prop :=
  forall name a l, st !! name = Some a -> participants a = Some l -> [] ∉ l.

(** ** The status an exception answers with

    FastAPI answers an [HTTPException] with its [status_code]; any other
    exception is not an answer of the handler. *)
Definition status_of (e : exception) : option Z :=
  match e with
  | HTTPException status_code _ => Some status_code
  | _ => None
  end.

(** ** The routes of the application

    The decorators of the source bind four routes to the handlers.  Requests
    are served one after the other on the one [activities] dictionary; a
    request whose handler raises is answered with the error, and the
    dictionary stays as the handler left it. *)

(** [GET /]: the handler [root]. *)
Definition root : M str := mret (lit "/static/index.html").

Inductive request : Type :=
| GetRoot
| GetActivities
| PostSignup (activity_name : str) (payload : option SignupRequest)
    (email : option str)
| DeleteUnregister (activity_name : str) (email : str).

Inductive answer : Type :=
| Redirect (url : str)
| Listing (activities : store)
| Body (r : response).

(** The activity a request is about, for the two routes that name one. *)
Definition target (r : request) : option str :=
  match r with
  | PostSignup activity_name _ _ => Some activity_name
  | DeleteUnregister activity_name _ => Some activity_name
  | _ => None
  end.

Definition route (db : char -> bool) (r : request) : M answer :=
  match r with
  | GetRoot => url ← root; mret (Redirect url)
  | GetActivities => listing ← get_activities; mret (Listing listing)
  | PostSignup activity_name payload email =>
      b ← signup_for_activity db activity_name payload email; mret (Body b)
  | DeleteUnregister activity_name email =>
      b ← unregister_from_activity db activity_name email; mret (Body b)
  end.

(** The dictionary after a sequence of requests. *)
Fixpoint serve (db : char -> bool) (rs : list request) (st : store) : store :=
  match rs with
  | [] => st
  | r :: rs' => serve db rs' (snd (route db r st))
  end.

(** ** What the handlers leave of the store *)

Definition same_metadata (a b : Activity) : Prop :=
  description a = description b /\ schedule a = schedule b
  /\ max_participants a = max_participants b.

(** The same keys, and under each key a record with the same description,
    schedule and capacity. *)
Definition same_activities (st st' : store) : Prop :=
  dom st' = dom st
  /\ forall name a, st !! name = Some a ->
       exists a', st' !! name = Some a' /\ same_metadata a a'.

(** What one request can make of the store: nothing, a roster with one new
    non-empty email at its end, or a roster without one of its elements. *)
Inductive store_step (st : store) : store -> Prop :=
| step_same : store_step st st
| step_append (name : str) (a : Activity) (u : str) :
    st !! name = Some a -> u <> [] -> u ∉ roster st name ->
    store_step st (<[name := set_participants (roster st name ++ [u]) a]> st)
| step_remove (name : str) (a : Activity) (l1 : list str) (x : str) (l2 : list str) :
    st !! name = Some a -> roster st name = l1 ++ x :: l2 ->
    store_step st (<[name := set_participants (l1 ++ l2) a]> st).

(** ** The outcomes of a request, check by check *)

(** The outcome of a signup, by the four checks in the order the handler
    makes them. *)
Inductive signup_case (db : char -> bool) (name : str)
    (payload : option SignupRequest) (q : option str) (st : store) : Prop :=
| signup_invalid (e : exception) :
    validate_activity_name db name = Raise e -> InvalidName e ->
    signup_for_activity db name payload q st = (Raise e, st) ->
    signup_case db name payload q st
| signup_no_email :
    validate_activity_name db name = Return tt ->
    select_email payload q = None ->
    signup_for_activity db name payload q st = (Raise email_required, st) ->
    signup_case db name payload q st
| signup_unknown (u : str) :
    validate_activity_name db name = Return tt ->
    select_email payload q = Some u ->
    st !! name = None ->
    signup_for_activity db name payload q st = (Raise activity_not_found, st) ->
    signup_case db name payload q st
| signup_already (u : str) (a : Activity) :
    validate_activity_name db name = Return tt ->
    select_email payload q = Some u ->
    st !! name = Some a ->
    u ∈ roster st name ->
    signup_for_activity db name payload q st = (Raise already_signed_up, st) ->
    signup_case db name payload q st
| signup_done (u : str) (a : Activity) :
    validate_activity_name db name = Return tt ->
    select_email payload q = Some u ->
    st !! name = Some a ->
    u ∉ roster st name ->
    signup_for_activity db name payload q st
    = (Return (signed_up u name),
       <[name := set_participants (roster st name ++ [u]) a]> st) ->
    signup_case db name payload q st.

(** The same for unregister, by its three checks. *)
Inductive unregister_case (db : char -> bool) (name email : str) (st : store) : Prop :=
| unregister_invalid (e : exception) :
    validate_activity_name db name = Raise e -> InvalidName e ->
    unregister_from_activity db name email st = (Raise e, st) ->
    unregister_case db name email st
| unregister_unknown :
    validate_activity_name db name = Return tt ->
    st !! name = None ->
    unregister_from_activity db name email st = (Raise activity_not_found, st) ->
    unregister_case db name email st
| unregister_absent (a : Activity) :
    validate_activity_name db name = Return tt ->
    st !! name = Some a ->
    email ∉ roster st name ->
    unregister_from_activity db name email st = (Raise not_signed_up, st) ->
    unregister_case db name email st
| unregister_done (a : Activity) (l1 l2 : list str) :
    validate_activity_name db name = Return tt ->
    st !! name = Some a ->
    roster st name = l1 ++ email :: l2 ->
    email ∉ l1 ->
    unregister_from_activity db name email st
    = (Return (unregistered email name),
       <[name := set_participants (l1 ++ l2) a]> st) ->
    unregister_case db name email st.

(** * Properties *)

(** ** The pattern accepts exactly the non-empty strings over its class *)

Lemma at_dollar_class (cls : char -> bool) (s : str) :
  cls 10 = true -> s <> [] -> Re.at_dollar s = true -> forallb cls s = true.
Proof.
  intros Hnl Hs. destruct s as [|c [|d s]]; simpl; try congruence.
  intros Hc. apply N.eqb_eq in Hc. subst c. now rewrite Hnl.
Qed.

Lemma plus_dollar_forallb (cls : char -> bool) (s : str) :
  cls 10 = true ->
  Re.plus_dollar cls s = negb (bool_decide (s = [])) && forallb cls s.
Proof.
  intros Hnl. induction s as [|c s IH]; [reflexivity|].
  cbn [Re.plus_dollar forallb]. rewrite IH.
  rewrite (bool_decide_eq_false_2 (c :: s = [])) by discriminate.
  cbn [negb andb]. destruct (cls c); [|reflexivity]. cbn [andb].
  destruct s as [|d s]; [reflexivity|].
  rewrite (bool_decide_eq_false_2 (d :: s = [])) by discriminate.
  cbn [negb andb].
  destruct (forallb cls (d :: s)) eqn:Hall; [reflexivity|].
  cbn [orb]. destruct (Re.at_dollar (d :: s)) eqn:Hd; [|reflexivity].
  apply (at_dollar_class cls) in Hd; [congruence|exact Hnl|discriminate].
Qed.

Lemma name_class_newline (db : char -> bool) : Re.name_class db 10 = true.
Proof. unfold Re.name_class. destruct (Unicode.word db 10); reflexivity. Qed.

Lemma match_name_pattern_forallb (db : char -> bool) (s : str) :
  Re.match_name_pattern db s
  = negb (bool_decide (s = [])) && forallb (Re.name_class db) s.
Proof. apply plus_dollar_forallb, name_class_newline. Qed.

(** ** [validate_activity_name] *)

Lemma len_nonempty (s : str) : (1 <= len s)%Z -> bool_decide (s = []) = false.
Proof.
  intros H. apply bool_decide_eq_false_2. intros ->. unfold len in H.
  simpl in H. lia.
Qed.

Lemma validate_ok_iff (db : char -> bool) (name : str) :
  validate_activity_name db name = Return tt
  <-> (1 <= len name <= 100)%Z /\ forallb (Re.name_class db) name = true.
Proof.
  unfold validate_activity_name. rewrite match_name_pattern_forallb.
  destruct (1 <=? len name)%Z eqn:H1; cbn [andb negb].
  - destruct (len name <=? 100)%Z eqn:H2; cbn [negb].
    + apply Z.leb_le in H1. apply Z.leb_le in H2.
      rewrite (len_nonempty name H1). cbn [negb andb].
      destruct (forallb (Re.name_class db) name); cbn [negb].
      * split; [intros _; split; [lia|reflexivity] | reflexivity].
      * split; [discriminate | intros [_ ?]; discriminate].
    + apply Z.leb_gt in H2. split; [discriminate | intros [? _]; lia].
  - apply Z.leb_gt in H1. split; [discriminate | intros [? _]; lia].
Qed.

Lemma validate_total (db : char -> bool) (name : str) :
  validate_activity_name db name = Return tt
  \/ validate_activity_name db name = Raise invalid_name_length
  \/ validate_activity_name db name = Raise invalid_name_characters.
Proof.
  unfold validate_activity_name.
  destruct (negb _); [tauto|]. destruct (negb _); tauto.
Qed.

(** On ASCII the class of the pattern is the set the specification names. *)
Lemma name_class_ascii (db : char -> bool) (c : char) :
  c < 128 -> Re.name_class db c = spec_name_char c.
Proof.
  intros Hc. unfold Re.name_class, spec_name_char, Unicode.word, Unicode.isalnum.
  assert (H256 : (c <? 256) = true) by (apply N.ltb_lt; lia).
  rewrite H256. unfold Unicode.latin1_isalnum.
  assert (E : forall k, 128 <= k -> (c =? k) = false)
    by (intros k Hk; apply N.eqb_neq; lia).
  assert (L : forall k, 128 <= k -> (k <=? c) = false)
    by (intros k Hk; apply N.leb_gt; lia).
  rewrite !E, !L by lia. cbn [andb orb].
  rewrite !orb_false_r.
  destruct (Unicode.ascii_digit c), (Unicode.ascii_letter c); reflexivity.
Qed.

Lemma forallb_name_class_ascii (db : char -> bool) (name : str) :
  Forall (fun c => c < 128) name ->
  forallb (Re.name_class db) name = forallb spec_name_char name.
Proof.
  induction 1 as [|c l Hc _ IH]; [reflexivity|].
  cbn [forallb]. now rewrite IH, (name_class_ascii db c Hc).
Qed.

(** C3, as the specification states it, fails: the one-character name
    U+00E9 (a Latin small letter e with acute accent) is accepted under every
    Unicode table, and it is outside the ASCII set of the specification. *)
Lemma validate_accepts_non_ascii_letter :
  (forall db, validate_activity_name db [233] = Return tt)
  /\ spec_valid_name [233] = false.
Proof. split; [intros db|]; reflexivity. Qed.

(** C3 (amended): [validate_activity_name] returns exactly for the names of
    length 1 to 100 whose every character is in the Unicode-aware class
    [[\w\s\-']] of the pattern (alphanumeric in any script, underscore, white
    space, hyphen, apostrophe); on names of ASCII characters that is the set
    of the specification; every other name raises one of the two
    [InvalidName] exceptions, a wrong length before a wrong character; and a
    call leaves the store as it was. *)
Theorem validate_activity_name_spec (db : char -> bool) (name : str) :
  (validate_activity_name db name = Return tt
   <-> (1 <= len name <= 100)%Z /\ Forall (fun c => Re.name_class db c = true) name)
  /\ (Forall (fun c => c < 128) name
      -> (validate_activity_name db name = Return tt <-> spec_valid_name name = true))
  /\ (validate_activity_name db name = Return tt
      \/ exists e, validate_activity_name db name = Raise e /\ InvalidName e)
  /\ (~ (1 <= len name <= 100)%Z
      -> validate_activity_name db name = Raise invalid_name_length)
  /\ ((1 <= len name <= 100)%Z
      -> Exists (fun c => Re.name_class db c = false) name
      -> validate_activity_name db name = Raise invalid_name_characters)
  /\ (forall st : store,
        call (validate_activity_name db name) st
        = (validate_activity_name db name, st)).
Proof.
  split_and!.
  - rewrite validate_ok_iff, forallb_forall, Forall_forall.
    split; intros [Hlen Hall]; (split; [exact Hlen|]); intros c Hc;
      apply Hall; now apply list_elem_of_In.
  - intros Hascii. rewrite validate_ok_iff. unfold spec_valid_name.
    rewrite <- (forallb_name_class_ascii db name) by assumption.
    rewrite !andb_true_iff, !Z.leb_le. tauto.
  - destruct (validate_total db name) as [H|[H|H]]; [now left| |];
      right; eexists; (split; [exact H|]); [now left | now right].
  - intros Hlen. unfold validate_activity_name.
    destruct (1 <=? len name)%Z eqn:H1; [|reflexivity].
    destruct (len name <=? 100)%Z eqn:H2; [|reflexivity].
    apply Z.leb_le in H1. apply Z.leb_le in H2. lia.
  - intros Hlen Hex. unfold validate_activity_name.
    rewrite match_name_pattern_forallb.
    destruct Hlen as [H1 H2].
    rewrite (proj2 (Z.leb_le _ _) H1), (proj2 (Z.leb_le _ _) H2).
    cbn [andb negb]. rewrite (len_nonempty name H1). cbn [negb andb].
    destruct (forallb (Re.name_class db) name) eqn:Hall; [|reflexivity].
    rewrite forallb_forall in Hall. apply Exists_exists in Hex.
    destruct Hex as [c [Hc Hf]]. apply list_elem_of_In in Hc.
    rewrite (Hall c Hc) in Hf. discriminate.
  - reflexivity.
Qed.

(** ** The store under an update of one record *)

Lemma roster_lookup (st : store) (name : str) (a : Activity) :
  st !! name = Some a -> roster st name = default [] (participants a).
Proof. intros H. unfold roster. now rewrite H. Qed.

Lemma roster_lookup_default (st : store) (name : str) :
  roster st name = default [] (st !! name ≫= participants).
Proof. reflexivity. Qed.

Lemma roster_insert_eq (st : store) (name : str) (a : Activity) (l : list str) :
  roster (<[name := set_participants l a]> st) name = l.
Proof. unfold roster. now rewrite lookup_insert_eq. Qed.

Lemma alter_set_participants (st : store) (name : str) (a : Activity) (l : list str) :
  st !! name = Some a ->
  alter (set_participants l) name st = <[name := set_participants l a]> st.
Proof.
  intros H. rewrite <- (insert_id st name a H) at 1.
  now rewrite alter_insert_eq.
Qed.

(** ** [list.remove] *)

Lemma remove_first_elem_of (x : str) (l : list str) :
  x ∈ l ->
  exists l1 l2,
    l = l1 ++ x :: l2 /\ (x ∉ l1) /\ remove_first x l = Some (l1 ++ l2).
Proof.
  induction l as [|y l IH]; intros Hin.
  - now apply not_elem_of_nil in Hin.
  - cbn [remove_first]. destruct (decide (y = x)) as [->|Hne].
    + exists [], l. split_and!; [reflexivity|apply not_elem_of_nil|reflexivity].
    + apply elem_of_cons in Hin. destruct Hin as [->|Hin]; [congruence|].
      destruct (IH Hin) as (l1 & l2 & -> & Hnot & Hrm).
      exists (y :: l1), l2. rewrite Hrm. split_and!; [reflexivity| |reflexivity].
      rewrite not_elem_of_cons. split; [congruence|exact Hnot].
Qed.

Lemma remove_first_not_elem_of (x : str) (l : list str) :
  x ∉ l -> remove_first x l = None.
Proof.
  induction l as [|y l IH]; intros Hnot; [reflexivity|].
  apply not_elem_of_cons in Hnot. destruct Hnot as [Hne Hnot].
  cbn [remove_first]. destruct (decide (y = x)); [congruence|].
  now rewrite (IH Hnot).
Qed.

(** ** The email a request supplies *)

Lemma select_email_Some (payload : option SignupRequest) (q : option str) (u : str) :
  select_email payload q = Some u -> truthy u = true.
Proof.
  unfold select_email.
  destruct (truthy_opt (payload_email payload)) eqn:Hp.
  - intros E. rewrite E in Hp. exact Hp.
  - destruct (truthy_opt q) eqn:Hq; [|discriminate].
    intros E. rewrite E in Hq. exact Hq.
Qed.

(** ** The handlers, branch by branch *)

(** Unfolding the monad and running a handler up to its next case
    distinction, under what is known of the store. *)
Ltac unfold_handler :=
  unfold mbind, M_bind, call, contains, getitem, setdefault_participants,
    get_participants, list_contains, list_append, list_remove, deref, assign,
    mbind, M_bind, mret, M_ret, mthrow, M_throw.

Ltac run_handler :=
  repeat (cbv beta iota;
          first [ rewrite lookup_insert_eq
                | match goal with H : _ !! _ = Some _ |- _ => rewrite H end
                | match goal with H : participants _ = _ |- _ => rewrite H end
                | progress cbn [negb mbind option_bind default from_option id
                                set_participants participants] ]).

Lemma signup_run (db : char -> bool) (name : str)
    (payload : option SignupRequest) (q : option str) (st : store) :
  signup_for_activity db name payload q st =
  match validate_activity_name db name with
  | Raise e => (Raise e, st)
  | Return _ =>
      match select_email payload q with
      | None => (Raise email_required, st)
      | Some u =>
          match st !! name with
          | None => (Raise activity_not_found, st)
          | Some a =>
              if bool_decide (u ∈ roster st name)
              then (Raise already_signed_up, st)
              else (Return (signed_up u name),
                    <[name := set_participants (roster st name ++ [u]) a]> st)
          end
      end
  end.
Proof.
  unfold signup_for_activity. unfold_handler.
  destruct (validate_activity_name db name) as [[]|e]; [|reflexivity].
  destruct (select_email payload q) as [u|] eqn:Hsel; [|reflexivity].
  cbn [truthy_opt default]. rewrite (select_email_Some _ _ _ Hsel). cbn [negb].
  rewrite (roster_lookup_default st name). cbv beta iota.
  destruct (st !! name) as [a|] eqn:Hst; [|reflexivity].
  rewrite (bool_decide_eq_true_2 (is_Some (Some a)) (mk_is_Some _ a eq_refl)).
  destruct (participants a) as [l|] eqn:Hp; run_handler.
  - destruct (bool_decide (u ∈ l)); [reflexivity|]. run_handler.
    now rewrite (alter_set_participants st name a _ Hst).
  - rewrite (bool_decide_eq_false_2 (u ∈ [])) by apply not_elem_of_nil.
    run_handler. rewrite alter_insert_eq. reflexivity.
Qed.

Lemma unregister_run (db : char -> bool) (name email : str) (st : store) :
  unregister_from_activity db name email st =
  match validate_activity_name db name with
  | Raise e => (Raise e, st)
  | Return _ =>
      match st !! name with
      | None => (Raise activity_not_found, st)
      | Some a =>
          match remove_first email (roster st name) with
          | None => (Raise not_signed_up, st)
          | Some l' =>
              (Return (unregistered email name),
               <[name := set_participants l' a]> st)
          end
      end
  end.
Proof.
  unfold unregister_from_activity. unfold_handler.
  destruct (validate_activity_name db name) as [[]|e]; [|reflexivity].
  rewrite (roster_lookup_default st name). cbv beta iota.
  destruct (st !! name) as [a|] eqn:Hst; [|reflexivity].
  rewrite (bool_decide_eq_true_2 (is_Some (Some a)) (mk_is_Some _ a eq_refl)).
  destruct (participants a) as [l|] eqn:Hp; run_handler.
  - destruct (decide (email ∈ l)) as [Hin|Hnot].
    + rewrite (bool_decide_eq_true_2 _ Hin). run_handler.
      destruct (remove_first_elem_of email l Hin) as (l1 & l2 & _ & _ & Hrm).
      rewrite Hrm. run_handler.
      now rewrite (alter_set_participants st name a _ Hst).
    + rewrite (bool_decide_eq_false_2 _ Hnot). run_handler.
      now rewrite (remove_first_not_elem_of email l Hnot).
  - rewrite (bool_decide_eq_false_2 (email ∈ [])) by apply not_elem_of_nil.
    reflexivity.
Qed.

(** The handlers raise nothing but their own [HTTPException]s: the
    [KeyError] of a subscript and the [ValueError] of [list.remove] are out of
    reach behind the checks that precede them. *)
Lemma signup_raises (db : char -> bool) (name : str)
    (payload : option SignupRequest) (q : option str) (st st' : store) (e : exception) :
  signup_for_activity db name payload q st = (Raise e, st') ->
  st' = st
  /\ (InvalidName e \/ MissingEmail e \/ ActivityNotFound e \/ AlreadySignedUp e).
Proof.
  rewrite signup_run.
  destruct (validate_total db name) as [Hv|[Hv|Hv]]; rewrite Hv.
  - destruct (select_email payload q) as [u|].
    + destruct (st !! name) as [a|].
      * destruct (bool_decide (u ∈ roster st name)); [|discriminate].
        intros [= <- <-]. split; [reflexivity|]. right. right. now right.
      * intros [= <- <-]. split; [reflexivity|]. right. right. now left.
    + intros [= <- <-]. split; [reflexivity|]. right. now left.
  - intros [= <- <-]. split; [reflexivity|]. left. now left.
  - intros [= <- <-]. split; [reflexivity|]. left. now right.
Qed.

Lemma unregister_raises (db : char -> bool) (name email : str)
    (st st' : store) (e : exception) :
  unregister_from_activity db name email st = (Raise e, st') ->
  st' = st /\ (InvalidName e \/ ActivityNotFound e \/ NotSignedUp e).
Proof.
  rewrite unregister_run.
  destruct (validate_total db name) as [Hv|[Hv|Hv]]; rewrite Hv.
  - destruct (st !! name) as [a|].
    + destruct (remove_first email (roster st name)); [discriminate|].
      intros [= <- <-]. split; [reflexivity|]. right. now right.
    + intros [= <- <-]. split; [reflexivity|]. right. now left.
  - intros [= <- <-]. split; [reflexivity|]. left. now left.
  - intros [= <- <-]. split; [reflexivity|]. left. now right.
Qed.

(** ** Signing up *)

Lemma signup_success (db : char -> bool) (st : store) (name : str) (a : Activity)
    (payload : option SignupRequest) (q : option str) (u : str) :
  st !! name = Some a ->
  validate_activity_name db name = Return tt ->
  select_email payload q = Some u ->
  u ∉ roster st name ->
  signup_for_activity db name payload q st
  = (Return (signed_up u name),
     <[name := set_participants (roster st name ++ [u]) a]> st).
Proof.
  intros Hst Hv Hsel Hnot. rewrite signup_run, Hv, Hsel, Hst.
  now rewrite (bool_decide_eq_false_2 _ Hnot).
Qed.

(** C1: for a name that is a key of the store and passes validation, and a
    non-empty email that the roster of that activity does not hold, signup
    returns the confirmation message, which quotes the email and the name,
    and appends the email: the roster is the old one followed by the email,
    so it is one longer, every old element is at its old index, and the
    email is last.  The rest of the record and the other records stay. *)
Theorem signup_appends_email (db : char -> bool) (st : store) (name : str)
    (a : Activity) (payload : option SignupRequest) (q : option str) (u : str) :
  st !! name = Some a ->
  validate_activity_name db name = Return tt ->
  u <> [] ->
  select_email payload q = Some u ->
  u ∉ roster st name ->
  let r := signup_for_activity db name payload q st in
  fst r = Return {| message := lit "Signed up " ++ u ++ lit " for " ++ name |}
  /\ roster (snd r) name = roster st name ++ [u]
  /\ length (roster (snd r) name) = S (length (roster st name))
  /\ (forall (i : nat) (x : str),
        roster st name !! i = Some x -> roster (snd r) name !! i = Some x)
  /\ last (roster (snd r) name) = Some u
  /\ (exists a', snd r !! name = Some a'
        /\ description a' = description a /\ schedule a' = schedule a
        /\ max_participants a' = max_participants a)
  /\ (forall other, other <> name -> snd r !! other = st !! other).
Proof.
  intros Hst Hv _ Hsel Hnot r. subst r.
  rewrite (signup_success db st name a payload q u Hst Hv Hsel Hnot).
  cbn [fst snd]. rewrite roster_insert_eq. split_and!.
  - reflexivity.
  - reflexivity.
  - rewrite length_app. simpl. lia.
  - intros i x Hi. now apply lookup_app_l_Some.
  - apply last_snoc.
  - eexists. rewrite lookup_insert_eq. split_and!; reflexivity.
  - intros other Hne. now rewrite lookup_insert_ne.
Qed.

(** C5: signup checks no capacity.  For an activity of the store whose roster
    is already as long as [max_participants] or longer, a valid signup with
    a non-empty email that is not on the roster returns the confirmation and
    appends the email. *)
Theorem signup_ignores_capacity (db : char -> bool) (st : store) (name : str)
    (a : Activity) (payload : option SignupRequest) (q : option str) (u : str) :
  st !! name = Some a ->
  (max_participants a <= Z.of_nat (length (roster st name)))%Z ->
  validate_activity_name db name = Return tt ->
  u <> [] ->
  select_email payload q = Some u ->
  u ∉ roster st name ->
  let r := signup_for_activity db name payload q st in
  fst r = Return (signed_up u name)
  /\ roster (snd r) name = roster st name ++ [u]
  /\ (max_participants a < Z.of_nat (length (roster (snd r) name)))%Z.
Proof.
  intros Hst Hfull Hv _ Hsel Hnot r. subst r.
  rewrite (signup_success db st name a payload q u Hst Hv Hsel Hnot).
  cbn [fst snd]. rewrite roster_insert_eq. split_and!; [reflexivity..|].
  rewrite length_app. simpl. lia.
Qed.

(** ** Unregistering *)

(** C2: for a name that is a key of the store and passes validation:
    unregister on an email of the roster returns the confirmation message
    and removes the first occurrence of the email, the other elements
    keeping their order; unregister on an email that is not on the roster
    raises [NotSignedUp] and leaves the store, so the roster, as it was. *)
Theorem unregister_removes_first (db : char -> bool) (st : store) (name : str)
    (a : Activity) (email : str) :
  st !! name = Some a ->
  validate_activity_name db name = Return tt ->
  let r := unregister_from_activity db name email st in
  (email ∈ roster st name ->
   exists l1 l2,
     roster st name = l1 ++ email :: l2 /\ (email ∉ l1)
     /\ fst r = Return {| message := lit "Unregistered " ++ email
                                     ++ lit " from " ++ name |}
     /\ roster (snd r) name = l1 ++ l2
     /\ S (length (roster (snd r) name)) = length (roster st name)
     /\ (forall other, other <> name -> snd r !! other = st !! other))
  /\ ((email ∉ roster st name) ->
      (exists e, fst r = Raise e /\ NotSignedUp e) /\ snd r = st).
Proof.
  intros Hst Hv r. subst r. rewrite unregister_run, Hv, Hst. split.
  - intros Hin.
    destruct (remove_first_elem_of email _ Hin) as (l1 & l2 & Hl & Hnot & Hrm).
    exists l1, l2. rewrite Hrm. cbn [fst snd]. rewrite roster_insert_eq.
    split_and!; [exact Hl|exact Hnot|reflexivity|reflexivity| |].
    + rewrite Hl, !length_app. simpl. lia.
    + intros other Hne. now rewrite lookup_insert_ne.
  - intros Hnot. rewrite (remove_first_not_elem_of email _ Hnot).
    cbn [fst snd]. split; [|reflexivity]. now exists not_signed_up.
Qed.

(** ** The two channels of the email *)

Lemma select_email_idem (payload : option SignupRequest) (q : option str) :
  select_email None (select_email payload q) = select_email payload q.
Proof.
  destruct (select_email payload q) as [u|] eqn:Hsel; [|reflexivity].
  unfold select_email. cbn [payload_email fmap option_fmap option_map truthy_opt].
  now rewrite (select_email_Some _ _ _ Hsel).
Qed.

(** C6: when the body carries a non-empty email, that one is selected,
    whatever the query parameter holds, and it is the one signup appends and
    quotes: the message reads "Signed up <email> for <name>" with it, the
    roster is the old one followed by it, and a different email of the query
    parameter does not get on the roster; when the body gives none and the
    query parameter is non-empty, the query parameter is selected, appended
    and quoted in the same way; when neither is non-empty, signup on a valid
    name raises [MissingEmail], also for a name that is not in the store (the
    check precedes the existence check), while on an invalid name it raises
    [InvalidName] (validation comes first). *)
Theorem signup_email_channels (db : char -> bool) :
  (forall (p : SignupRequest) (q : option str),
      truthy (email p) = true -> select_email (Some p) q = Some (email p))
  /\ (forall (payload : option SignupRequest) (q : str),
      truthy_opt (payload_email payload) = false -> truthy q = true ->
      select_email payload (Some q) = Some q)
  /\ (forall (name : str) (p : SignupRequest) (q : option str) (st : store) (a : Activity),
      truthy (email p) = true ->
      validate_activity_name db name = Return tt ->
      st !! name = Some a -> email p ∉ roster st name ->
      let r := signup_for_activity db name (Some p) q st in
      fst r = Return {| message := lit "Signed up " ++ email p
                                   ++ lit " for " ++ name |}
      /\ roster (snd r) name = roster st name ++ [email p]
      /\ last (roster (snd r) name) = Some (email p)
      /\ (forall x, q = Some x -> x <> email p -> x ∉ roster st name ->
            x ∉ roster (snd r) name))
  /\ (forall (name : str) (payload : option SignupRequest) (q : str) (st : store)
        (a : Activity),
      truthy_opt (payload_email payload) = false -> truthy q = true ->
      validate_activity_name db name = Return tt ->
      st !! name = Some a -> q ∉ roster st name ->
      let r := signup_for_activity db name payload (Some q) st in
      fst r = Return {| message := lit "Signed up " ++ q ++ lit " for " ++ name |}
      /\ roster (snd r) name = roster st name ++ [q]
      /\ last (roster (snd r) name) = Some q)
  /\ (forall (name : str) (payload : option SignupRequest) (q : option str) (st : store),
      truthy_opt (payload_email payload) = false -> truthy_opt q = false ->
      validate_activity_name db name = Return tt ->
      signup_for_activity db name payload q st
      = (Raise (HTTPException 400 (lit "Email is required")), st)
      /\ MissingEmail (HTTPException 400 (lit "Email is required")))
  /\ (forall (name : str) (payload : option SignupRequest) (q : option str) (st : store),
      validate_activity_name db name <> Return tt ->
      exists e, signup_for_activity db name payload q st = (Raise e, st)
                /\ InvalidName e)
  /\ (forall (name : str) (payload : option SignupRequest) (q : option str) (st : store),
      signup_for_activity db name payload q st
      = signup_for_activity db name None (select_email payload q) st).
Proof.
  assert (Hbody : forall (p : SignupRequest) (q : option str),
             truthy (email p) = true -> select_email (Some p) q = Some (email p)).
  { intros p q Hp. unfold select_email.
    cbn [payload_email fmap option_fmap option_map truthy_opt]. now rewrite Hp. }
  assert (Hquery : forall (payload : option SignupRequest) (q : str),
             truthy_opt (payload_email payload) = false -> truthy q = true ->
             select_email payload (Some q) = Some q).
  { intros payload q Hp Hq. unfold select_email. rewrite Hp.
    cbn [truthy_opt]. now rewrite Hq. }
  split_and!.
  - exact Hbody.
  - exact Hquery.
  - intros name p q st a Hp Hv Hst Hnot r. subst r.
    rewrite (signup_success db st name a (Some p) q (email p) Hst Hv
               (Hbody p q Hp) Hnot).
    cbn [fst snd]. rewrite roster_insert_eq.
    split_and!; [reflexivity|reflexivity|apply last_snoc|].
    intros x _ Hne Hx. rewrite elem_of_app, list_elem_of_singleton. tauto.
  - intros name payload q st a Hp Hq Hv Hst Hnot r. subst r.
    rewrite (signup_success db st name a payload (Some q) q Hst Hv
               (Hquery payload q Hp Hq) Hnot).
    cbn [fst snd]. rewrite roster_insert_eq.
    split_and!; [reflexivity|reflexivity|apply last_snoc].
  - intros name payload q st Hp Hq Hv. split; [|reflexivity].
    rewrite signup_run, Hv. unfold select_email. now rewrite Hp, Hq.
  - intros name payload q st Hv. rewrite signup_run.
    destruct (validate_total db name) as [H|[H|H]]; [contradiction| |];
      rewrite H; eexists; (split; [reflexivity|]); [now left | now right].
  - intros name payload q st.
    now rewrite !signup_run, select_email_idem.
Qed.

(** ** Failures *)

(** C7: a signup or an unregister that raises leaves the whole store as it
    was, and raises one of the error kinds of its operation; in particular
    signup of an email that is on the roster raises [AlreadySignedUp], and
    signup for a valid name that is not in the store raises
    [ActivityNotFound], both with the store unchanged. *)
Theorem errors_leave_store_unchanged (db : char -> bool) :
  (forall (name : str) (payload : option SignupRequest) (q : option str)
      (st st' : store) (e : exception),
      signup_for_activity db name payload q st = (Raise e, st') ->
      st' = st
      /\ (InvalidName e \/ MissingEmail e \/ ActivityNotFound e \/ AlreadySignedUp e))
  /\ (forall (name email : str) (st st' : store) (e : exception),
      unregister_from_activity db name email st = (Raise e, st') ->
      st' = st /\ (InvalidName e \/ ActivityNotFound e \/ NotSignedUp e))
  /\ (forall (name : str) (payload : option SignupRequest) (q : option str)
        (st : store) (u : str),
      validate_activity_name db name = Return tt ->
      select_email payload q = Some u ->
      u ∈ roster st name ->
      signup_for_activity db name payload q st = (Raise already_signed_up, st)
      /\ AlreadySignedUp already_signed_up)
  /\ (forall (name : str) (payload : option SignupRequest) (q : option str)
        (st : store) (u : str),
      validate_activity_name db name = Return tt ->
      select_email payload q = Some u ->
      st !! name = None ->
      signup_for_activity db name payload q st = (Raise activity_not_found, st)
      /\ ActivityNotFound activity_not_found).
Proof.
  split_and!.
  - intros name payload q st st' e. apply signup_raises.
  - intros name email st st' e. apply unregister_raises.
  - intros name payload q st u Hv Hsel Hin. split; [|reflexivity].
    rewrite signup_run, Hv, Hsel.
    destruct (st !! name) as [a|] eqn:Hst.
    + now rewrite (bool_decide_eq_true_2 _ Hin).
    + unfold roster in Hin. rewrite Hst in Hin.
      now apply not_elem_of_nil in Hin.
  - intros name payload q st u Hv Hsel Hst. split; [|reflexivity].
    now rewrite signup_run, Hv, Hsel, Hst.
Qed.

(** C9: a failed signup or unregister, run again with the same inputs on the
    store it left, raises the same exception and again leaves that store. *)
Theorem failure_is_idempotent (db : char -> bool) :
  (forall (name : str) (payload : option SignupRequest) (q : option str)
      (st st' : store) (e : exception),
      signup_for_activity db name payload q st = (Raise e, st') ->
      signup_for_activity db name payload q st' = (Raise e, st'))
  /\ (forall (name email : str) (st st' : store) (e : exception),
      unregister_from_activity db name email st = (Raise e, st') ->
      unregister_from_activity db name email st' = (Raise e, st')).
Proof.
  split.
  - intros name payload q st st' e H.
    destruct (signup_raises _ _ _ _ _ _ _ H) as [-> _]. exact H.
  - intros name email st st' e H.
    destruct (unregister_raises _ _ _ _ _ _ H) as [-> _]. exact H.
Qed.

(** ** The no-duplicates invariant *)

Lemma no_duplicates_roster (st : store) (name : str) :
  no_duplicates st -> NoDup (roster st name).
Proof.
  intros Hinv. unfold roster.
  destruct (st !! name) as [a|] eqn:Hst; [|apply NoDup_nil_2].
  cbn [mbind option_bind].
  destruct (participants a) as [l|] eqn:Hp; [|apply NoDup_nil_2].
  exact (Hinv name a l Hst Hp).
Qed.

Lemma no_duplicates_insert (st : store) (name : str) (a : Activity) (l : list str) :
  no_duplicates st -> NoDup l ->
  no_duplicates (<[name := set_participants l a]> st).
Proof.
  intros Hinv Hl other b k Hb Hk.
  destruct (decide (name = other)) as [->|Hne].
  - rewrite lookup_insert_eq in Hb. injection Hb as <-.
    cbn [set_participants participants] in Hk. now injection Hk as <-.
  - rewrite lookup_insert_ne in Hb by exact Hne. exact (Hinv other b k Hb Hk).
Qed.

Lemma NoDup_snoc_fresh (l : list str) (x : str) :
  NoDup l -> x ∉ l -> NoDup (l ++ [x]).
Proof.
  intros Hl Hx. apply NoDup_app. split_and!; [exact Hl| |apply NoDup_singleton].
  intros y Hy Hyx. apply list_elem_of_singleton in Hyx. now subst y.
Qed.

Lemma remove_first_NoDup (x : str) (l l' : list str) :
  NoDup l -> remove_first x l = Some l' -> NoDup l'.
Proof.
  intros Hl Hrm. destruct (decide (x ∈ l)) as [Hin|Hnot].
  - destruct (remove_first_elem_of x l Hin) as (l1 & l2 & -> & _ & Hrm').
    rewrite Hrm' in Hrm. injection Hrm as <-.
    apply NoDup_app in Hl. destruct Hl as (H1 & Hdisj & H2).
    apply NoDup_cons in H2. destruct H2 as [_ H2].
    apply NoDup_app. split_and!; [exact H1| |exact H2].
    intros y Hy Hy2. apply (Hdisj y Hy). now right.
  - rewrite (remove_first_not_elem_of x l Hnot) in Hrm. discriminate.
Qed.

(** C8: from a store in which no roster holds an email twice, every signup
    and every unregister, whether it returns or raises, leaves a store in
    which no roster holds an email twice. *)
Theorem no_duplicates_preserved (db : char -> bool) (st : store) :
  no_duplicates st ->
  (forall (name : str) (payload : option SignupRequest) (q : option str),
      no_duplicates (snd (signup_for_activity db name payload q st)))
  /\ (forall (name email : str),
      no_duplicates (snd (unregister_from_activity db name email st))).
Proof.
  intros Hinv. split.
  - intros name payload q. rewrite signup_run.
    destruct (validate_activity_name db name) as [[]|e]; [|exact Hinv].
    destruct (select_email payload q) as [u|]; [|exact Hinv].
    destruct (st !! name) as [a|] eqn:Hst; [|exact Hinv].
    destruct (decide (u ∈ roster st name)) as [Hin|Hnot].
    + rewrite (bool_decide_eq_true_2 _ Hin). exact Hinv.
    + rewrite (bool_decide_eq_false_2 _ Hnot). cbn [snd].
      apply no_duplicates_insert; [exact Hinv|].
      apply NoDup_snoc_fresh; [|exact Hnot]. now apply no_duplicates_roster.
  - intros name email. rewrite unregister_run.
    destruct (validate_activity_name db name) as [[]|e]; [|exact Hinv].
    destruct (st !! name) as [a|] eqn:Hst; [|exact Hinv].
    destruct (remove_first email (roster st name)) as [l'|] eqn:Hrm; [|exact Hinv].
    cbn [snd]. apply no_duplicates_insert; [exact Hinv|].
    apply (remove_first_NoDup email (roster st name) l'); [|exact Hrm].
    now apply no_duplicates_roster.
Qed.

(** ** A record without the ["participants"] key *)

(** C10: for a record of the store that has no ["participants"] key, under
    a name that passes validation: signup sees an empty roster, [setdefault]
    puts an empty list on the record, and the signup of a non-empty email
    returns the message "Signed up <email> for <name>" and leaves the record
    with that email as its only participant, the rest of the record and the
    other records as they were; unregister gets a list of its own from
    [get], raises [NotSignedUp] for every email, and leaves the record
    without the key. *)
Theorem absent_participants_key (db : char -> bool) (st : store) (name : str)
    (a : Activity) :
  st !! name = Some a ->
  participants a = None ->
  validate_activity_name db name = Return tt ->
  roster st name = []
  /\ (let s := setdefault_participants name st in
      fst s = Return (ParticipantsOf name)
      /\ (snd s !! name ≫= participants) = Some []
      /\ (forall other, other <> name -> snd s !! other = st !! other))
  /\ (forall (payload : option SignupRequest) (q : option str) (u : str),
        select_email payload q = Some u ->
        let r := signup_for_activity db name payload q st in
        fst r = Return {| message := lit "Signed up " ++ u ++ lit " for " ++ name |}
        /\ (snd r !! name ≫= participants) = Some [u]
        /\ roster (snd r) name = [u]
        /\ (exists a', snd r !! name = Some a'
              /\ description a' = description a /\ schedule a' = schedule a
              /\ max_participants a' = max_participants a)
        /\ (forall other, other <> name -> snd r !! other = st !! other))
  /\ get_participants name st = (Return (Fresh []), st)
  /\ (forall email : str,
        unregister_from_activity db name email st
        = (Raise (HTTPException 400
                    (lit "Student is not signed up for this activity")), st)
        /\ NotSignedUp (HTTPException 400
                          (lit "Student is not signed up for this activity"))
        /\ (snd (unregister_from_activity db name email st) !! name
              ≫= participants) = None).
Proof.
  intros Hst Hp Hv.
  assert (Hroster : roster st name = []).
  { rewrite (roster_lookup st name a Hst). now rewrite Hp. }
  split_and!.
  - exact Hroster.
  - unfold setdefault_participants. rewrite Hst, Hp. cbn [fst snd].
    rewrite lookup_insert_eq. split_and!; [reflexivity|reflexivity|].
    intros other Hne. now rewrite lookup_insert_ne.
  - intros payload q u Hsel r. subst r.
    rewrite (signup_success db st name a payload q u Hst Hv Hsel)
      by (rewrite Hroster; apply not_elem_of_nil).
    rewrite Hroster. cbn [fst snd app]. rewrite roster_insert_eq.
    rewrite lookup_insert_eq. split_and!; [reflexivity|reflexivity|reflexivity| |].
    + eexists. split_and!; reflexivity.
    + intros other Hne. now rewrite lookup_insert_ne.
  - unfold get_participants. now rewrite Hst, Hp.
  - intros email.
    assert (Hrun : unregister_from_activity db name email st
                   = (Raise not_signed_up, st)).
    { now rewrite unregister_run, Hv, Hst, Hroster. }
    rewrite Hrun. cbn [snd]. rewrite Hst. cbn [mbind option_bind].
    split_and!; [reflexivity|reflexivity|exact Hp].
Qed.

(** ** Start-up *)

Lemma embedded_defaults_nonempty : (∅ : store) <> embedded_defaults.
Proof.
  intros H. apply (f_equal (fun m : store => m !! lit "Chess Club")) in H.
  vm_compute in H. discriminate.
Qed.

(** C4, as the specification states it, fails: with a file on which
    [json.load] raises, start-up binds the empty dictionary, not the
    defaults. *)
Lemma load_unparsable_file_is_empty :
  load_activities (File (Raise ValueError)) = Return ∅
  /\ load_activities (File (Raise ValueError)) <> Return embedded_defaults.
Proof.
  split; [reflexivity|]. cbn [load_activities try_except].
  intros H. apply embedded_defaults_nonempty.
  exact (f_equal (fun o => match o with Return m => m | Raise _ => ∅ end) H).
Qed.

(** C4 (amended): without a file start-up binds the three built-in sample
    activities (Chess Club, Programming Class, Gym Class, with their
    schedules, capacities and seed participants); with a file that cannot be
    read or parsed it binds the empty dictionary; with a file that parses it
    binds what the file holds; start-up never raises. *)
Theorem load_activities_spec :
  load_activities NoFile = Return embedded_defaults
  /\ size embedded_defaults = 3%nat
  /\ embedded_defaults !! lit "Chess Club"
     = Some {| description := lit "Learn strategies and compete in chess tournaments";
               schedule := lit "Fridays, 3:30 PM - 5:00 PM";
               max_participants := 12;
               participants :=
                 Some [lit "michael@mergington.edu"; lit "daniel@mergington.edu"] |}
  /\ embedded_defaults !! lit "Programming Class"
     = Some {| description :=
                 lit "Learn programming fundamentals and build software projects";
               schedule := lit "Tuesdays and Thursdays, 3:30 PM - 4:30 PM";
               max_participants := 20;
               participants :=
                 Some [lit "emma@mergington.edu"; lit "sophia@mergington.edu"] |}
  /\ embedded_defaults !! lit "Gym Class"
     = Some {| description := lit "Physical education and sports activities";
               schedule := lit "Mondays, Wednesdays, Fridays, 2:00 PM - 3:00 PM";
               max_participants := 30;
               participants :=
                 Some [lit "john@mergington.edu"; lit "olivia@mergington.edu"] |}
  /\ (forall e : exception, load_activities (File (Raise e)) = Return ∅)
  /\ (forall v : store, load_activities (File (Return v)) = Return v)
  /\ (forall f : activities_file, exists st : store, load_activities f = Return st).
Proof.
  split_and!.
  - reflexivity.
  - vm_compute. reflexivity.
  - vm_compute. reflexivity.
  - vm_compute. reflexivity.
  - vm_compute. reflexivity.
  - intros e. reflexivity.
  - intros v. reflexivity.
  - intros [|[v|e]]; eexists; reflexivity.
Qed.

(** * The statements on concrete requests *)

(** Goals over concrete data whose proposition is decidable are settled by
    evaluating the decision. *)
Ltac by_evaluation := apply (bool_decide_unpack _); vm_compute; exact I.

Lemma no_duplicates_map_Forall (st : store) :
  map_Forall (fun _ a => NoDup (default [] (participants a))) st ->
  no_duplicates st.
Proof.
  intros Hall name a l Hst Hp. specialize (Hall name a Hst).
  cbv beta in Hall. now rewrite Hp in Hall.
Qed.

(** A new email for the Chess Club of the defaults, through the query
    parameter. *)
Lemma signup_appends_email_witness :
  roster (snd (signup_for_activity no_alnum_beyond_latin1 (lit "Chess Club") None
                 (Some (lit "new@mergington.edu")) embedded_defaults))
         (lit "Chess Club")
  = roster embedded_defaults (lit "Chess Club") ++ [lit "new@mergington.edu"].
Proof.
  refine (proj1 (proj2 (signup_appends_email no_alnum_beyond_latin1
    embedded_defaults (lit "Chess Club")
    {| description := lit "Learn strategies and compete in chess tournaments";
       schedule := lit "Fridays, 3:30 PM - 5:00 PM";
       max_participants := 12;
       participants :=
         Some [lit "michael@mergington.edu"; lit "daniel@mergington.edu"] |}
    None (Some (lit "new@mergington.edu")) (lit "new@mergington.edu")
    _ _ _ _ _))).
  - vm_compute. reflexivity.
  - vm_compute. reflexivity.
  - discriminate.
  - reflexivity.
  - by_evaluation.
Defined.

(** The same request against a club that is over its capacity of one. *)
Lemma signup_ignores_capacity_witness :
  roster (snd (signup_for_activity no_alnum_beyond_latin1 (lit "Chess Club") None
                 (Some (lit "new@mergington.edu")) crowded_store))
         (lit "Chess Club")
  = roster crowded_store (lit "Chess Club") ++ [lit "new@mergington.edu"].
Proof.
  refine (proj1 (proj2 (signup_ignores_capacity no_alnum_beyond_latin1
    crowded_store (lit "Chess Club")
    {| description := lit "Learn strategies and compete in chess tournaments";
       schedule := lit "Fridays, 3:30 PM - 5:00 PM";
       max_participants := 1;
       participants :=
         Some [lit "michael@mergington.edu"; lit "daniel@mergington.edu"] |}
    None (Some (lit "new@mergington.edu")) (lit "new@mergington.edu")
    _ _ _ _ _ _))).
  - vm_compute. reflexivity.
  - vm_compute. discriminate.
  - vm_compute. reflexivity.
  - discriminate.
  - reflexivity.
  - by_evaluation.
Defined.

(** Daniel leaves the Chess Club of the defaults; a stranger cannot. *)
Lemma unregister_removes_first_witness :
  (exists l1 l2 : list (list N),
      roster embedded_defaults (lit "Chess Club")
      = l1 ++ lit "daniel@mergington.edu" :: l2
      /\ roster (snd (unregister_from_activity no_alnum_beyond_latin1
                        (lit "Chess Club") (lit "daniel@mergington.edu")
                        embedded_defaults)) (lit "Chess Club")
         = l1 ++ l2)
  /\ snd (unregister_from_activity no_alnum_beyond_latin1 (lit "Chess Club")
            (lit "nobody@mergington.edu") embedded_defaults)
     = embedded_defaults.
Proof.
  assert (Hst : embedded_defaults !! lit "Chess Club"
                = Some {| description :=
                            lit "Learn strategies and compete in chess tournaments";
                          schedule := lit "Fridays, 3:30 PM - 5:00 PM";
                          max_participants := 12;
                          participants :=
                            Some [lit "michael@mergington.edu";
                                  lit "daniel@mergington.edu"] |})
    by (vm_compute; reflexivity).
  assert (Hv : validate_activity_name no_alnum_beyond_latin1 (lit "Chess Club")
               = Return tt) by (vm_compute; reflexivity).
  split.
  - destruct (proj1 (unregister_removes_first no_alnum_beyond_latin1
        embedded_defaults (lit "Chess Club") _ (lit "daniel@mergington.edu")
        Hst Hv)) as (l1 & l2 & Hl & _ & _ & Hr & _).
    + by_evaluation.
    + exists l1, l2. split; [exact Hl|exact Hr].
  - refine (proj2 (proj2 (unregister_removes_first no_alnum_beyond_latin1
        embedded_defaults (lit "Chess Club") _ (lit "nobody@mergington.edu")
        Hst Hv) _)).
    by_evaluation.
Defined.

(** An ASCII name, on which the class of the pattern and the set of the
    specification agree. *)
Lemma validate_activity_name_spec_witness :
  spec_valid_name (lit "Chess Club") = true.
Proof.
  refine (proj1 (proj1 (proj2 (validate_activity_name_spec
                                 no_alnum_beyond_latin1 (lit "Chess Club"))) _) _).
  - by_evaluation.
  - vm_compute. reflexivity.
Defined.

(** A request that carries one email in the body and another in the query
    parameter: the one of the body is signed up. *)
Lemma signup_email_channels_witness :
  fst (signup_for_activity no_alnum_beyond_latin1 (lit "Gym Class")
         (Some {| email := lit "body@mergington.edu" |})
         (Some (lit "query@mergington.edu")) embedded_defaults)
  = Return {| message := lit "Signed up body@mergington.edu for Gym Class" |}
  /\ roster (snd (signup_for_activity no_alnum_beyond_latin1 (lit "Gym Class")
                    (Some {| email := lit "body@mergington.edu" |})
                    (Some (lit "query@mergington.edu")) embedded_defaults))
            (lit "Gym Class")
     = [lit "john@mergington.edu"; lit "olivia@mergington.edu";
        lit "body@mergington.edu"]
  /\ (lit "query@mergington.edu"
      ∉ roster (snd (signup_for_activity no_alnum_beyond_latin1 (lit "Gym Class")
                       (Some {| email := lit "body@mergington.edu" |})
                       (Some (lit "query@mergington.edu")) embedded_defaults))
               (lit "Gym Class")).
Proof.
  destruct (proj1 (proj2 (proj2
    (signup_email_channels no_alnum_beyond_latin1)))
    (lit "Gym Class") {| email := lit "body@mergington.edu" |}
    (Some (lit "query@mergington.edu")) embedded_defaults
    {| description := lit "Physical education and sports activities";
       schedule := lit "Mondays, Wednesdays, Fridays, 2:00 PM - 3:00 PM";
       max_participants := 30;
       participants :=
         Some [lit "john@mergington.edu"; lit "olivia@mergington.edu"] |})
    as (Hmsg & Hroster & _ & Hother).
  - reflexivity.
  - vm_compute. reflexivity.
  - vm_compute. reflexivity.
  - by_evaluation.
  - split_and!.
    + exact Hmsg.
    + exact Hroster.
    + apply (Hother (lit "query@mergington.edu")).
      * reflexivity.
      * vm_compute. discriminate.
      * by_evaluation.
Defined.

(** Michael is on the roster of the Chess Club already. *)
Lemma errors_leave_store_unchanged_witness :
  signup_for_activity no_alnum_beyond_latin1 (lit "Chess Club") None
    (Some (lit "michael@mergington.edu")) embedded_defaults
  = (Raise already_signed_up, embedded_defaults).
Proof.
  refine (proj1 (proj1 (proj2 (proj2
    (errors_leave_store_unchanged no_alnum_beyond_latin1)))
    (lit "Chess Club") None (Some (lit "michael@mergington.edu"))
    embedded_defaults (lit "michael@mergington.edu") _ _ _)).
  - vm_compute. reflexivity.
  - reflexivity.
  - by_evaluation.
Defined.

(** The same request, repeated. *)
Lemma failure_is_idempotent_witness :
  signup_for_activity no_alnum_beyond_latin1 (lit "Bad/Name!") None
    (Some (lit "x@y.edu")) embedded_defaults
  = (Raise invalid_name_characters, embedded_defaults).
Proof.
  refine (proj1 (failure_is_idempotent no_alnum_beyond_latin1)
    (lit "Bad/Name!") None (Some (lit "x@y.edu"))
    embedded_defaults embedded_defaults invalid_name_characters _).
  vm_compute. reflexivity.
Defined.

(** The defaults hold no email twice, and a signup keeps it so. *)
Lemma no_duplicates_preserved_witness :
  no_duplicates embedded_defaults
  /\ no_duplicates
       (snd (signup_for_activity no_alnum_beyond_latin1 (lit "Chess Club") None
               (Some (lit "new@mergington.edu")) embedded_defaults)).
Proof.
  assert (Hinv : no_duplicates embedded_defaults)
    by (apply no_duplicates_map_Forall; by_evaluation).
  split; [exact Hinv|].
  exact (proj1 (no_duplicates_preserved no_alnum_beyond_latin1
                  embedded_defaults Hinv)
           (lit "Chess Club") None (Some (lit "new@mergington.edu"))).
Defined.

(** A record that came without the ["participants"] key. *)
Lemma absent_participants_key_witness :
  fst (signup_for_activity no_alnum_beyond_latin1 (lit "Art Club") None
         (Some (lit "new@mergington.edu")) bare_store)
  = Return {| message := lit "Signed up new@mergington.edu for Art Club" |}
  /\ (snd (signup_for_activity no_alnum_beyond_latin1 (lit "Art Club") None
             (Some (lit "new@mergington.edu")) bare_store) !! lit "Art Club"
        ≫= participants)
     = Some [lit "new@mergington.edu"]
  /\ unregister_from_activity no_alnum_beyond_latin1 (lit "Art Club")
       (lit "new@mergington.edu") bare_store
     = (Raise (HTTPException 400
                 (lit "Student is not signed up for this activity")),
        bare_store).
Proof.
  assert (H : bare_store !! lit "Art Club" = Some art_club)
    by (vm_compute; reflexivity).
  assert (Hp : participants art_club = None) by reflexivity.
  assert (Hv : validate_activity_name no_alnum_beyond_latin1 (lit "Art Club")
               = Return tt) by (vm_compute; reflexivity).
  destruct (absent_participants_key no_alnum_beyond_latin1 bare_store
              (lit "Art Club") art_club H Hp Hv)
    as (_ & _ & Hsignup & _ & Hunregister).
  destruct (Hsignup None (Some (lit "new@mergington.edu"))
              (lit "new@mergington.edu") eq_refl) as (Hmsg & Hkey & _).
  split_and!.
  - exact Hmsg.
  - exact Hkey.
  - exact (proj1 (Hunregister (lit "new@mergington.edu"))).
Defined.

(** * Further properties of the handlers *)

(** ** Which outcome a request has *)

Lemma raised_exceptions_distinct :
  invalid_name_length <> invalid_name_characters
  /\ invalid_name_length <> email_required
  /\ invalid_name_length <> activity_not_found
  /\ invalid_name_length <> already_signed_up
  /\ invalid_name_length <> not_signed_up
  /\ invalid_name_characters <> email_required
  /\ invalid_name_characters <> activity_not_found
  /\ invalid_name_characters <> already_signed_up
  /\ invalid_name_characters <> not_signed_up
  /\ email_required <> activity_not_found
  /\ email_required <> already_signed_up
  /\ activity_not_found <> already_signed_up
  /\ activity_not_found <> not_signed_up.
Proof. split_and!; intros H; vm_compute in H; discriminate H. Qed.

Lemma validate_Return (db : char -> bool) (name : str) (u : unit) :
  validate_activity_name db name = Return u ->
  validate_activity_name db name = Return tt.
Proof. now destruct u. Qed.

Lemma signup_cases (db : char -> bool) (name : str)
    (payload : option SignupRequest) (q : option str) (st : store) :
  signup_case db name payload q st.
Proof.
  pose proof (signup_run db name payload q st) as Hrun.
  destruct (validate_total db name) as [Hv|[Hv|Hv]]; rewrite Hv in Hrun.
  - destruct (select_email payload q) as [u|] eqn:Hsel;
      [|now apply signup_no_email].
    destruct (st !! name) as [a|] eqn:Hst;
      [|now apply (signup_unknown _ _ _ _ _ u)].
    destruct (decide (u ∈ roster st name)) as [Hin|Hnot].
    + rewrite (bool_decide_eq_true_2 _ Hin) in Hrun.
      now apply (signup_already _ _ _ _ _ u a).
    + rewrite (bool_decide_eq_false_2 _ Hnot) in Hrun.
      now apply (signup_done _ _ _ _ _ u a).
  - apply (signup_invalid _ _ _ _ _ invalid_name_length);
      [exact Hv|now left|exact Hrun].
  - apply (signup_invalid _ _ _ _ _ invalid_name_characters);
      [exact Hv|now right|exact Hrun].
Qed.

Lemma unregister_cases (db : char -> bool) (name email : str) (st : store) :
  unregister_case db name email st.
Proof.
  pose proof (unregister_run db name email st) as Hrun.
  destruct (validate_total db name) as [Hv|[Hv|Hv]]; rewrite Hv in Hrun.
  - destruct (st !! name) as [a|] eqn:Hst;
      [|now apply unregister_unknown].
    destruct (decide (email ∈ roster st name)) as [Hin|Hnot].
    + destruct (remove_first_elem_of email _ Hin) as (l1 & l2 & Hl & Hnot & Hrm).
      rewrite Hrm in Hrun. now apply (unregister_done _ _ _ _ a l1 l2).
    + rewrite (remove_first_not_elem_of email _ Hnot) in Hrun.
      now apply (unregister_absent _ _ _ _ a).
  - apply (unregister_invalid _ _ _ _ invalid_name_length);
      [exact Hv|now left|exact Hrun].
  - apply (unregister_invalid _ _ _ _ invalid_name_characters);
      [exact Hv|now right|exact Hrun].
Qed.

Lemma invalid_name_not_other (e : exception) :
  InvalidName e ->
  e <> email_required /\ e <> activity_not_found
  /\ e <> already_signed_up /\ e <> not_signed_up.
Proof.
  destruct raised_exceptions_distinct
    as (D1 & D2 & D3 & D4 & D5 & D6 & D7 & D8 & D9 & D10 & D11 & D12 & D13).
  intros [-> | ->]; split_and!; assumption.
Qed.

(** One equivalence of an outcome table, in a branch where the outcome and
    the facts about the request are known. *)
Ltac settle_outcome :=
  unfold is_Some; split; intros;
  repeat match goal with
         | H : _ /\ _ |- _ => destruct H
         | H : exists _, _ |- _ => destruct H
         | H : InvalidName _ |- _ => apply invalid_name_not_other in H
         | H : Raise _ = Raise _ |- _ => injection H as H
         | H : Some _ = Some _ |- _ => injection H as H
         end;
  subst; try discriminate; try contradiction; try congruence; eauto 8.

Lemma roster_unknown (st : store) (name : str) :
  st !! name = None -> roster st name = [].
Proof. intros H. unfold roster. now rewrite H. Qed.

(** X1: the outcome of a signup, exactly.  It returns if and only if the
    name passes validation, the request supplies a non-empty email, the name
    is a key of the store and the email is not on its roster; it raises an
    [InvalidName] exception if and only if validation fails; the 400 of a
    missing email if and only if the name is valid and no email is supplied;
    the 404 if and only if name and email are fine and the name is no key;
    the 400 of a repeated signup if and only if name and email are fine and
    the email is on the roster. *)
Theorem signup_outcome_table (db : char -> bool) (name : str)
    (payload : option SignupRequest) (q : option str) (st : store) :
  let r := fst (signup_for_activity db name payload q st) in
  ((exists m, r = Return m)
   <-> validate_activity_name db name = Return tt
       /\ exists u, select_email payload q = Some u
                    /\ is_Some (st !! name) /\ (u ∉ roster st name))
  /\ ((exists e, r = Raise e /\ InvalidName e)
      <-> validate_activity_name db name <> Return tt)
  /\ (r = Raise email_required
      <-> validate_activity_name db name = Return tt
          /\ select_email payload q = None)
  /\ (r = Raise activity_not_found
      <-> validate_activity_name db name = Return tt
          /\ is_Some (select_email payload q) /\ st !! name = None)
  /\ (r = Raise already_signed_up
      <-> validate_activity_name db name = Return tt
          /\ exists u, select_email payload q = Some u /\ u ∈ roster st name).
Proof.
  intros r. subst r.
  destruct raised_exceptions_distinct
    as (D1 & D2 & D3 & D4 & D5 & D6 & D7 & D8 & D9 & D10 & D11 & D12 & D13).
  destruct (signup_cases db name payload q st)
    as [e Hv He Hrun | Hv Hsel Hrun | u Hv Hsel Hst Hrun
        | u a Hv Hsel Hst Hin Hrun | u a Hv Hsel Hst Hnot Hrun];
    rewrite Hrun; cbn [fst]; rewrite ?Hv, ?Hsel, ?Hst.
  - destruct (invalid_name_not_other e He) as (N1 & N2 & N3 & N4). split_and!.
    + split; [intros [m Hm]; discriminate | intros [H _]; discriminate].
    + split; [intros _; discriminate | intros _; now exists e].
    + split; [intros [= H]; contradiction | intros [H _]; discriminate].
    + split; [intros [= H]; contradiction | intros [H _]; discriminate].
    + split; [intros [= H]; contradiction | intros [H _]; discriminate].
  - split_and!; settle_outcome.
  - pose proof (roster_unknown st name Hst) as Hr. rewrite Hr.
    pose proof (not_elem_of_nil u).
    split_and!; settle_outcome.
  - split_and!; settle_outcome.
  - split_and!; settle_outcome.
Qed.

(** X2: the outcome of an unregister, exactly.  It returns if and only if
    the name passes validation, is a key of the store, and the email is on
    its roster; it raises [InvalidName] if and only if validation fails; the
    404 if and only if the name is valid and no key; the 400 of an email
    that is not signed up if and only if the name is valid and a key and the
    email is not on the roster.  An empty email is treated like any other. *)
Theorem unregister_outcome_table (db : char -> bool) (name email : str) (st : store) :
  let r := fst (unregister_from_activity db name email st) in
  ((exists m, r = Return m)
   <-> validate_activity_name db name = Return tt
       /\ is_Some (st !! name) /\ email ∈ roster st name)
  /\ ((exists e, r = Raise e /\ InvalidName e)
      <-> validate_activity_name db name <> Return tt)
  /\ (r = Raise activity_not_found
      <-> validate_activity_name db name = Return tt /\ st !! name = None)
  /\ (r = Raise not_signed_up
      <-> validate_activity_name db name = Return tt
          /\ is_Some (st !! name) /\ (email ∉ roster st name)).
Proof.
  intros r. subst r.
  destruct raised_exceptions_distinct
    as (D1 & D2 & D3 & D4 & D5 & D6 & D7 & D8 & D9 & D10 & D11 & D12 & D13).
  destruct (unregister_cases db name email st)
    as [e Hv He Hrun | Hv Hst Hrun | a Hv Hst Hnot Hrun
        | a l1 l2 Hv Hst Hl Hnot Hrun];
    rewrite Hrun; cbn [fst]; rewrite ?Hv, ?Hst.
  - destruct (invalid_name_not_other e He) as (N1 & N2 & N3 & N4). split_and!.
    + split; [intros [m Hm]; discriminate | intros [H _]; discriminate].
    + split; [intros _; discriminate | intros _; now exists e].
    + split; [intros [= H]; contradiction | intros [H _]; discriminate].
    + split; [intros [= H]; contradiction | intros [H _]; discriminate].
  - pose proof (roster_unknown st name Hst) as Hr. rewrite Hr.
    pose proof (not_elem_of_nil email).
    split_and!; settle_outcome.
  - split_and!; settle_outcome.
  - assert (Hin : email ∈ roster st name).
    { rewrite Hl. apply elem_of_app. right. now left. }
    split_and!; settle_outcome.
Qed.

(** ** The status of the answer *)

Lemma status_of_invalid_name (e : exception) :
  InvalidName e -> status_of e = Some 400%Z.
Proof. intros [-> | ->]; reflexivity. Qed.

(** X3: a request that fails is answered with status 400 or 404, and with
    404 exactly when the activity is unknown: for signup, when the name
    passes validation, an email is supplied and the name is no key of the
    store; for unregister, when the name passes validation and is no key. *)
Theorem failure_status_codes (db : char -> bool) :
  (forall (name : str) (payload : option SignupRequest) (q : option str)
      (st : store) (e : exception),
      fst (signup_for_activity db name payload q st) = Raise e ->
      (status_of e = Some 400%Z \/ status_of e = Some 404%Z)
      /\ (status_of e = Some 404%Z
          <-> validate_activity_name db name = Return tt
              /\ is_Some (select_email payload q) /\ st !! name = None))
  /\ (forall (name email : str) (st : store) (e : exception),
      fst (unregister_from_activity db name email st) = Raise e ->
      (status_of e = Some 400%Z \/ status_of e = Some 404%Z)
      /\ (status_of e = Some 404%Z
          <-> validate_activity_name db name = Return tt /\ st !! name = None)).
Proof.
  split.
  - intros name payload q st e.
    destruct (signup_cases db name payload q st)
      as [e' Hv He Hrun | Hv Hsel Hrun | u Hv Hsel Hst Hrun
          | u a Hv Hsel Hst Hin Hrun | u a Hv Hsel Hst Hnot Hrun];
      rewrite Hrun; cbn [fst]; intros [= <-]; rewrite ?Hv, ?Hsel, ?Hst.
    + rewrite (status_of_invalid_name e' He).
      split; [now left|]. split; [discriminate|intros [H _]; discriminate].
    + split; [now left|].
      split; [discriminate|intros (_ & [x Hx] & _); discriminate].
    + split; [now right|]. split; [|reflexivity].
      intros _. split_and!; [reflexivity|now exists u|reflexivity].
    + split; [now left|]. split; [discriminate|intros (_ & _ & H); discriminate].
  - intros name email st e.
    destruct (unregister_cases db name email st)
      as [e' Hv He Hrun | Hv Hst Hrun | a Hv Hst Hnot Hrun
          | a l1 l2 Hv Hst Hl Hnot Hrun];
      rewrite Hrun; cbn [fst]; intros [= <-]; rewrite ?Hv, ?Hst.
    + rewrite (status_of_invalid_name e' He).
      split; [now left|]. split; [discriminate|intros [H _]; discriminate].
    + split; [now right|]. split; [|reflexivity]. now intros _.
    + split; [now left|]. split; [discriminate|intros [_ H]; discriminate].
Qed.

(** ** What a request leaves of the store *)

Lemma same_activities_refl (st : store) : same_activities st st.
Proof.
  split; [reflexivity|]. intros name a Hst. exists a.
  split; [exact Hst|]. now split_and!.
Qed.

Lemma same_activities_insert (st : store) (name : str) (a : Activity) (l : list str) :
  st !! name = Some a ->
  same_activities st (<[name := set_participants l a]> st).
Proof.
  intros Hst. split.
  - rewrite dom_insert_L. apply subseteq_union_1_L, singleton_subseteq_l.
    exact (elem_of_dom_2 st name a Hst).
  - intros other b Hb. destruct (decide (name = other)) as [->|Hne].
    + rewrite lookup_insert_eq. eexists. split; [reflexivity|].
      rewrite Hst in Hb. injection Hb as <-. now split_and!.
    + rewrite lookup_insert_ne by exact Hne. exists b.
      split; [exact Hb|]. now split_and!.
Qed.

(** X4: no request adds or deletes an activity or touches a description, a
    schedule or a capacity: after any signup or unregister, whatever its
    outcome, the store has the keys it had, each with the same metadata, and
    every record under another name than the one of the request is the
    record it was. *)
Theorem handlers_keep_activities (db : char -> bool) (st : store) :
  (forall (name : str) (payload : option SignupRequest) (q : option str),
      let st' := snd (signup_for_activity db name payload q st) in
      same_activities st st'
      /\ forall other, other <> name -> st' !! other = st !! other)
  /\ (forall (name email : str),
      let st' := snd (unregister_from_activity db name email st) in
      same_activities st st'
      /\ forall other, other <> name -> st' !! other = st !! other).
Proof.
  split.
  - intros name payload q st'. subst st'.
    destruct (signup_cases db name payload q st)
      as [e' Hv He Hrun | Hv Hsel Hrun | u Hv Hsel Hst Hrun
          | u a Hv Hsel Hst Hin Hrun | u a Hv Hsel Hst Hnot Hrun];
      rewrite Hrun; cbn [snd];
      try (split; [apply same_activities_refl|reflexivity]).
    split; [now apply same_activities_insert|].
    intros other Hne. now rewrite lookup_insert_ne.
  - intros name email st'. subst st'.
    destruct (unregister_cases db name email st)
      as [e' Hv He Hrun | Hv Hst Hrun | a Hv Hst Hnot Hrun
          | a l1 l2 Hv Hst Hl Hnot Hrun];
      rewrite Hrun; cbn [snd];
      try (split; [apply same_activities_refl|reflexivity]).
    split; [now apply same_activities_insert|].
    intros other Hne. now rewrite lookup_insert_ne.
Qed.

(** ** Requests in sequence *)

Lemma remove_first_snoc (x : str) (l : list str) :
  x ∉ l -> remove_first x (l ++ [x]) = Some l.
Proof.
  induction l as [|y l IH]; intros Hnot; cbn [remove_first app].
  - now rewrite decide_True.
  - apply not_elem_of_cons in Hnot. destruct Hnot as [Hne Hnot].
    rewrite decide_False by congruence. now rewrite (IH Hnot).
Qed.

Lemma signup_on_roster (db : char -> bool) (st : store) (name : str)
    (payload : option SignupRequest) (q : option str) (u : str) :
  validate_activity_name db name = Return tt ->
  select_email payload q = Some u ->
  u ∈ roster st name ->
  signup_for_activity db name payload q st = (Raise already_signed_up, st).
Proof.
  intros Hv Hsel Hin. rewrite signup_run, Hv, Hsel.
  destruct (st !! name) as [a|] eqn:Hst.
  - now rewrite (bool_decide_eq_true_2 _ Hin).
  - rewrite (roster_unknown st name Hst) in Hin.
    now apply not_elem_of_nil in Hin.
Qed.

Lemma unregister_off_roster (db : char -> bool) (st : store) (name email : str)
    (a : Activity) :
  validate_activity_name db name = Return tt ->
  st !! name = Some a ->
  email ∉ roster st name ->
  unregister_from_activity db name email st = (Raise not_signed_up, st).
Proof.
  intros Hv Hst Hnot. rewrite unregister_run, Hv, Hst.
  now rewrite (remove_first_not_elem_of email _ Hnot).
Qed.

(** X5: a successful signup followed by the unregister of the same email
    gives the roster back: the unregister returns its confirmation and the
    roster is the one before the signup.  The whole store is the one before
    the signup when the record had a ["participants"] key; a record that had
    none keeps the empty list that the signup put there. *)
Theorem signup_then_unregister (db : char -> bool) (st : store) (name : str)
    (a : Activity) (payload : option SignupRequest) (q : option str) (u : str) :
  st !! name = Some a ->
  validate_activity_name db name = Return tt ->
  select_email payload q = Some u ->
  u ∉ roster st name ->
  let st1 := snd (signup_for_activity db name payload q st) in
  let r2 := unregister_from_activity db name u st1 in
  fst r2 = Return (unregistered u name)
  /\ roster (snd r2) name = roster st name
  /\ (forall other, other <> name -> snd r2 !! other = st !! other)
  /\ (is_Some (participants a) -> snd r2 = st)
  /\ (participants a = None ->
      snd r2 !! name = Some (set_participants [] a) /\ snd r2 <> st).
Proof.
  intros Hst Hv Hsel Hnot st1 r2. subst r2 st1.
  rewrite (signup_success db st name a payload q u Hst Hv Hsel Hnot).
  cbn [snd]. rewrite unregister_run, Hv, lookup_insert_eq, roster_insert_eq.
  rewrite (remove_first_snoc u _ Hnot). cbn [fst snd].
  rewrite insert_insert_eq.
  change (set_participants (roster st name)
            (set_participants (roster st name ++ [u]) a))
    with (set_participants (roster st name) a).
  rewrite roster_insert_eq. split_and!.
  - reflexivity.
  - reflexivity.
  - intros other Hne. now rewrite lookup_insert_ne.
  - intros [l Hl]. apply insert_id. rewrite Hst. f_equal.
    rewrite (roster_lookup st name a Hst), Hl. cbn [default from_option id].
    destruct a as [d s m p]. cbn in Hl. now subst p.
  - intros Hnone. rewrite (roster_lookup st name a Hst), Hnone.
    cbn [default from_option id]. rewrite lookup_insert_eq.
    split; [reflexivity|]. intros Heq.
    apply (f_equal (fun m : store => m !! name ≫= participants)) in Heq.
    rewrite lookup_insert_eq, Hst in Heq. cbn [mbind option_bind] in Heq.
    rewrite Hnone in Heq. discriminate.
Qed.

(** X6: the unregister of an email of the roster followed by a signup of
    the same email.  With the roster [l1 ++ email :: l2], [email] not in
    [l1]: if the email is not in [l2] either, the signup returns and the
    email has moved to the end, [l1 ++ l2 ++ [email]]; if a second copy
    sits in [l2], the signup raises [AlreadySignedUp] and the roster stays
    [l1 ++ l2]. *)
Theorem unregister_then_signup (db : char -> bool) (st : store) (name : str)
    (a : Activity) (payload : option SignupRequest) (q : option str) (u : str) :
  st !! name = Some a ->
  validate_activity_name db name = Return tt ->
  select_email payload q = Some u ->
  u ∈ roster st name ->
  let st1 := snd (unregister_from_activity db name u st) in
  let r2 := signup_for_activity db name payload q st1 in
  exists l1 l2,
    roster st name = l1 ++ u :: l2 /\ (u ∉ l1)
    /\ ((u ∉ l2) ->
        fst r2 = Return (signed_up u name)
        /\ roster (snd r2) name = l1 ++ l2 ++ [u])
    /\ (u ∈ l2 ->
        fst r2 = Raise already_signed_up /\ roster (snd r2) name = l1 ++ l2).
Proof.
  intros Hst Hv Hsel Hin st1 r2. subst r2 st1.
  destruct (remove_first_elem_of u _ Hin) as (l1 & l2 & Hl & Hnot1 & Hrm).
  exists l1, l2. rewrite unregister_run, Hv, Hst, Hrm. cbn [snd].
  split_and!; [exact Hl|exact Hnot1| |].
  - intros Hnot2.
    assert (Hnot : u ∉ roster (<[name := set_participants (l1 ++ l2) a]> st) name).
    { rewrite roster_insert_eq. rewrite elem_of_app. tauto. }
    rewrite (signup_success db _ name _ payload q u
               (lookup_insert_eq _ _ _) Hv Hsel Hnot).
    cbn [fst snd]. rewrite !roster_insert_eq.
    split; [reflexivity|]. now rewrite <- app_assoc.
  - intros Hin2. rewrite (signup_on_roster db _ name payload q u Hv Hsel).
    + cbn [fst snd]. now rewrite roster_insert_eq.
    + rewrite roster_insert_eq. apply elem_of_app. now right.
Qed.

(** X7: a signup is not repeatable.  For a valid name that is a key of the
    store and a supplied email, the same request sent a second time raises
    [AlreadySignedUp] and leaves the store of the first, whether the first
    returned or raised. *)
Theorem signup_twice (db : char -> bool) (st : store) (name : str)
    (payload : option SignupRequest) (q : option str) (u : str) :
  validate_activity_name db name = Return tt ->
  select_email payload q = Some u ->
  is_Some (st !! name) ->
  let st1 := snd (signup_for_activity db name payload q st) in
  signup_for_activity db name payload q st1 = (Raise already_signed_up, st1).
Proof.
  intros Hv Hsel [a Hst] st1. subst st1.
  apply (signup_on_roster db _ name payload q u Hv Hsel).
  rewrite signup_run, Hv, Hsel, Hst.
  destruct (decide (u ∈ roster st name)) as [Hin|Hnot].
  - now rewrite (bool_decide_eq_true_2 _ Hin).
  - rewrite (bool_decide_eq_false_2 _ Hnot). cbn [snd].
    rewrite roster_insert_eq. apply elem_of_app. right. now left.
Qed.

(** X8: on a roster without duplicates an unregister is not repeatable.
    For a valid name that is a key of the store, the same request sent a
    second time raises [NotSignedUp] and leaves the store of the first. *)
Theorem unregister_twice (db : char -> bool) (st : store) (name email : str) :
  validate_activity_name db name = Return tt ->
  is_Some (st !! name) ->
  NoDup (roster st name) ->
  let st1 := snd (unregister_from_activity db name email st) in
  unregister_from_activity db name email st1 = (Raise not_signed_up, st1).
Proof.
  intros Hv [a Hst] Hnd st1. subst st1.
  rewrite (unregister_run db name email st), Hv, Hst.
  destruct (decide (email ∈ roster st name)) as [Hin|Hnot].
  - destruct (remove_first_elem_of email _ Hin) as (l1 & l2 & Hl & Hnot1 & Hrm).
    rewrite Hrm. cbn [snd].
    apply (unregister_off_roster db _ name email (set_participants (l1 ++ l2) a) Hv).
    + apply lookup_insert_eq.
    + rewrite roster_insert_eq. rewrite Hl in Hnd.
      apply NoDup_app in Hnd. destruct Hnd as (_ & _ & Hnd).
      apply NoDup_cons in Hnd. destruct Hnd as [Hnot2 _].
      rewrite elem_of_app. tauto.
  - rewrite (remove_first_not_elem_of email _ Hnot). cbn [snd].
    now apply (unregister_off_roster db st name email a).
Qed.

(** ** No roster comes to hold the empty string *)

Lemma no_empty_email_insert (st : store) (name : str) (a : Activity) (l : list str) :
  no_empty_email st -> [] ∉ l ->
  no_empty_email (<[name := set_participants l a]> st).
Proof.
  intros Hinv Hl other b k Hb Hk.
  destruct (decide (name = other)) as [->|Hne].
  - rewrite lookup_insert_eq in Hb. injection Hb as <-.
    cbn [set_participants participants] in Hk. now injection Hk as <-.
  - rewrite lookup_insert_ne in Hb by exact Hne. exact (Hinv other b k Hb Hk).
Qed.

Lemma no_empty_email_roster (st : store) (name : str) :
  no_empty_email st -> [] ∉ roster st name.
Proof.
  intros Hinv. unfold roster.
  destruct (st !! name) as [a|] eqn:Hst; [|apply not_elem_of_nil].
  cbn [mbind option_bind].
  destruct (participants a) as [l|] eqn:Hp; [|apply not_elem_of_nil].
  exact (Hinv name a l Hst Hp).
Qed.

(** X9: signup appends non-empty emails only, so a store in which no roster
    holds the empty string stays so under every signup and unregister; and
    on such a store an unregister with an empty email, which the handler
    does not reject by itself, never returns. *)
Theorem no_empty_email_preserved (db : char -> bool) (st : store) :
  no_empty_email st ->
  (forall (name : str) (payload : option SignupRequest) (q : option str),
      no_empty_email (snd (signup_for_activity db name payload q st)))
  /\ (forall (name email : str),
      no_empty_email (snd (unregister_from_activity db name email st)))
  /\ (forall name : str,
      exists e, unregister_from_activity db name [] st = (Raise e, st)).
Proof.
  intros Hinv. split_and!.
  - intros name payload q.
    destruct (signup_cases db name payload q st)
      as [e' Hv He Hrun | Hv Hsel Hrun | u Hv Hsel Hst Hrun
          | u a Hv Hsel Hst Hin Hrun | u a Hv Hsel Hst Hnot Hrun];
      rewrite Hrun; cbn [snd]; try exact Hinv.
    apply no_empty_email_insert; [exact Hinv|].
    rewrite elem_of_app, list_elem_of_singleton.
    intros [H|H]; [exact (no_empty_email_roster st name Hinv H)|].
    subst u. apply select_email_Some in Hsel. discriminate.
  - intros name email.
    destruct (unregister_cases db name email st)
      as [e' Hv He Hrun | Hv Hst Hrun | a Hv Hst Hnot Hrun
          | a l1 l2 Hv Hst Hl Hnot Hrun];
      rewrite Hrun; cbn [snd]; try exact Hinv.
    apply no_empty_email_insert; [exact Hinv|].
    pose proof (no_empty_email_roster st name Hinv) as Hr. rewrite Hl in Hr.
    rewrite elem_of_app in *. rewrite elem_of_cons in Hr. tauto.
  - intros name.
    destruct (unregister_cases db name [] st)
      as [e' Hv He Hrun | Hv Hst Hrun | a Hv Hst Hnot Hrun
          | a l1 l2 Hv Hst Hl Hnot Hrun]; try (eexists; exact Hrun).
    exfalso. apply (no_empty_email_roster st name Hinv).
    rewrite Hl. apply elem_of_app. right. now left.
Qed.

(** ** The pattern and its end anchor *)

(** X10: [re.match] with the pattern of the source accepts exactly the
    non-empty strings whose every character is in the class.  The end anchor,
    which also holds before a final newline, lets nothing else through: a
    character outside the class makes the match fail also when a newline
    follows it; and a newline after an accepted string is accepted, being a
    character of the class itself. *)
Theorem name_pattern_exact (db : char -> bool) :
  (forall s : str,
      Re.match_name_pattern db s = true
      <-> s <> [] /\ Forall (fun c => Re.name_class db c = true) s)
  /\ (forall (s : str) (c : char),
      Re.name_class db c = false ->
      Re.match_name_pattern db (s ++ [c]) = false
      /\ Re.match_name_pattern db (s ++ [c; 10]) = false)
  /\ (forall s : str,
      Re.match_name_pattern db s = true ->
      Re.match_name_pattern db (s ++ [10]) = true).
Proof.
  assert (Hiff : forall s : str,
             Re.match_name_pattern db s = true
             <-> s <> [] /\ Forall (fun c => Re.name_class db c = true) s).
  { intros s. rewrite match_name_pattern_forallb, andb_true_iff, negb_true_iff.
    rewrite bool_decide_eq_false, forallb_forall, Forall_forall.
    split; intros [Hs Hall]; (split; [exact Hs|]); intros c Hc;
      apply Hall; now apply list_elem_of_In. }
  split_and!.
  - exact Hiff.
  - intros s c Hc.
    split; apply not_true_is_false; intros H; apply Hiff in H;
      destruct H as [_ H]; apply Forall_app in H; destruct H as [_ H];
      apply Forall_cons in H; destruct H as [H _]; congruence.
  - intros s H. apply Hiff in H. destruct H as [Hs Hall]. apply Hiff. split.
    + intros Heq. apply app_eq_nil in Heq. tauto.
    + apply Forall_app. split; [exact Hall|].
      apply Forall_cons. split; [apply name_class_newline|apply Forall_nil_2].
Qed.

(** [validate_activity_name] on a name with one more character of the
    class. *)
Lemma validate_cons (db : char -> bool) (name : str) (c : char) :
  validate_activity_name db name = Return tt ->
  (len name < 100)%Z ->
  Re.name_class db c = true ->
  validate_activity_name db (c :: name) = Return tt
  /\ validate_activity_name db (name ++ [c]) = Return tt.
Proof.
  intros Hv Hlen Hc. apply validate_ok_iff in Hv. destruct Hv as [Hl Hall].
  unfold len in *.
  split; apply validate_ok_iff; unfold len.
  - cbn [length forallb]. rewrite Hc, Hall. split; [lia|reflexivity].
  - rewrite length_app, forallb_app. cbn [length forallb].
    rewrite Hc, Hall. split; [lia|reflexivity].
Qed.

(** X13: validation lets line breaks and tabs through.  Under every Unicode
    table, a valid name shorter than 100 characters stays valid with a
    newline, a carriage return or a tab added in front or at the end, and a
    name that is one newline is valid. *)
Theorem validate_accepts_control_whitespace (db : char -> bool) (name : str) :
  validate_activity_name db name = Return tt ->
  (len name < 100)%Z ->
  validate_activity_name db [10] = Return tt
  /\ forall c : char, c = 9 \/ c = 10 \/ c = 13 ->
       validate_activity_name db (c :: name) = Return tt
       /\ validate_activity_name db (name ++ [c]) = Return tt.
Proof.
  intros Hv Hlen. split.
  - apply validate_ok_iff. split; [unfold len; simpl; lia|].
    cbn [forallb]. now rewrite name_class_newline.
  - intros c Hc. apply (validate_cons db name c Hv Hlen).
    unfold Re.name_class.
    destruct Hc as [-> | [-> | ->]];
      destruct (Unicode.word db _); reflexivity.
Qed.

(** ** Requests against the store of a failed load *)

(** X11: after a start-up whose file could not be read or parsed, the
    listing is empty, no request returns and none changes the store: every
    signup and every unregister raises an [HTTPException]; a signup with a
    valid name and an email, and an unregister with a valid name, raise the
    404 of an unknown activity. *)
Theorem requests_after_failed_load (db : char -> bool) (e : exception) :
  exists st : store,
    load_activities (File (Raise e)) = Return st
    /\ get_activities st = (Return ∅, st)
    /\ (forall (name : str) (payload : option SignupRequest) (q : option str),
          exists ex, signup_for_activity db name payload q st = (Raise ex, st)
                     /\ is_Some (status_of ex))
    /\ (forall (name email : str),
          exists ex, unregister_from_activity db name email st = (Raise ex, st)
                     /\ is_Some (status_of ex))
    /\ (forall (name : str) (payload : option SignupRequest) (q : option str),
          validate_activity_name db name = Return tt ->
          is_Some (select_email payload q) ->
          signup_for_activity db name payload q st = (Raise activity_not_found, st))
    /\ (forall (name email : str),
          validate_activity_name db name = Return tt ->
          unregister_from_activity db name email st = (Raise activity_not_found, st)).
Proof.
  exists ∅. split_and!.
  - reflexivity.
  - reflexivity.
  - intros name payload q.
    destruct (signup_cases db name payload q ∅)
      as [e' Hv He Hrun | Hv Hsel Hrun | u Hv Hsel Hst Hrun
          | u a Hv Hsel Hst Hin Hrun | u a Hv Hsel Hst Hnot Hrun].
    + exists e'. split; [exact Hrun|].
      rewrite (status_of_invalid_name e' He). now eexists.
    + eexists. split; [exact Hrun|]. now eexists.
    + eexists. split; [exact Hrun|]. now eexists.
    + rewrite lookup_empty in Hst. discriminate.
    + rewrite lookup_empty in Hst. discriminate.
  - intros name email.
    destruct (unregister_cases db name email ∅)
      as [e' Hv He Hrun | Hv Hst Hrun | a Hv Hst Hnot Hrun
          | a l1 l2 Hv Hst Hl Hnot Hrun].
    + exists e'. split; [exact Hrun|].
      rewrite (status_of_invalid_name e' He). now eexists.
    + eexists. split; [exact Hrun|]. now eexists.
    + rewrite lookup_empty in Hst. discriminate.
    + rewrite lookup_empty in Hst. discriminate.
  - intros name payload q Hv [u Hsel].
    now rewrite signup_run, Hv, Hsel, lookup_empty.
  - intros name email Hv. now rewrite unregister_run, Hv, lookup_empty.
Qed.

(** ** Who is on which roster after a request *)

Lemma roster_insert_ne (st : store) (name other : str) (a : Activity) :
  name <> other -> roster (<[name := a]> st) other = roster st other.
Proof. intros H. unfold roster. now rewrite lookup_insert_ne. Qed.

(** X12: a signup takes nobody off a roster, and puts nobody on one but the
    email of the request on the roster of its activity; an unregister puts
    nobody on a roster, and takes nobody off one except the email of the
    request off the roster of its activity. *)
Theorem roster_membership_after (db : char -> bool) (st : store) :
  (forall (name : str) (payload : option SignupRequest) (q : option str)
      (other x : str),
      let st' := snd (signup_for_activity db name payload q st) in
      (x ∈ roster st other -> x ∈ roster st' other)
      /\ (x ∈ roster st' other ->
          x ∈ roster st other
          \/ (other = name /\ select_email payload q = Some x)))
  /\ (forall (name email other x : str),
      let st' := snd (unregister_from_activity db name email st) in
      (x ∈ roster st' other -> x ∈ roster st other)
      /\ (x ∈ roster st other -> x <> email \/ other <> name ->
          x ∈ roster st' other)).
Proof.
  split.
  - intros name payload q other x st'. subst st'.
    destruct (signup_cases db name payload q st)
      as [e' Hv He Hrun | Hv Hsel Hrun | u Hv Hsel Hst Hrun
          | u a Hv Hsel Hst Hin Hrun | u a Hv Hsel Hst Hnot Hrun];
      rewrite Hrun; cbn [snd]; try tauto.
    destruct (decide (name = other)) as [<-|Hne].
    + rewrite roster_insert_eq, elem_of_app, list_elem_of_singleton.
      split; [tauto|]. intros [H | ->]; [now left|right]. now split.
    + rewrite (roster_insert_ne st name other _ Hne). tauto.
  - intros name email other x st'. subst st'.
    destruct (unregister_cases db name email st)
      as [e' Hv He Hrun | Hv Hst Hrun | a Hv Hst Hnot Hrun
          | a l1 l2 Hv Hst Hl Hnot Hrun];
      rewrite Hrun; cbn [snd]; try tauto.
    destruct (decide (name = other)) as [<-|Hne].
    + rewrite roster_insert_eq, Hl, !elem_of_app, elem_of_cons.
      split; [tauto|]. intros [H | [-> | H]] [Hx | Hx]; tauto.
    + rewrite (roster_insert_ne st name other _ Hne). tauto.
Qed.

(** ** Sequences of requests *)

Lemma route_signup (db : char -> bool) (name : str)
    (payload : option SignupRequest) (q : option str) (st : store) :
  snd (route db (PostSignup name payload q) st)
  = snd (signup_for_activity db name payload q st)
  /\ fst (route db (PostSignup name payload q) st)
     = match fst (signup_for_activity db name payload q st) with
       | Return b => Return (Body b)
       | Raise e => Raise e
       end.
Proof.
  cbn [route]. unfold mbind, M_bind, mret, M_ret.
  now destruct (signup_for_activity db name payload q st) as [[b|e] st'].
Qed.

Lemma route_unregister (db : char -> bool) (name email : str) (st : store) :
  snd (route db (DeleteUnregister name email) st)
  = snd (unregister_from_activity db name email st)
  /\ fst (route db (DeleteUnregister name email) st)
     = match fst (unregister_from_activity db name email st) with
       | Return b => Return (Body b)
       | Raise e => Raise e
       end.
Proof.
  cbn [route]. unfold mbind, M_bind, mret, M_ret.
  now destruct (unregister_from_activity db name email st) as [[b|e] st'].
Qed.

Lemma route_step (db : char -> bool) (r : request) (st : store) :
  store_step st (snd (route db r st)).
Proof.
  destruct r as [| |name payload q|name email].
  - apply step_same.
  - apply step_same.
  - rewrite (proj1 (route_signup db name payload q st)).
    destruct (signup_cases db name payload q st)
      as [e' Hv He Hrun | Hv Hsel Hrun | u Hv Hsel Hst Hrun
          | u a Hv Hsel Hst Hin Hrun | u a Hv Hsel Hst Hnot Hrun];
      rewrite Hrun; cbn [snd]; try apply step_same.
    apply step_append; [exact Hst| |exact Hnot].
    intros ->. apply select_email_Some in Hsel. discriminate.
  - rewrite (proj1 (route_unregister db name email st)).
    destruct (unregister_cases db name email st)
      as [e' Hv He Hrun | Hv Hst Hrun | a Hv Hst Hnot Hrun
          | a l1 l2 Hv Hst Hl Hnot Hrun];
      rewrite Hrun; cbn [snd]; try apply step_same.
    now apply (step_remove st name a l1 email l2).
Qed.

Lemma same_activities_trans (st1 st2 st3 : store) :
  same_activities st1 st2 -> same_activities st2 st3 -> same_activities st1 st3.
Proof.
  intros [Hd1 H1] [Hd2 H2]. split; [congruence|].
  intros name a Hst. destruct (H1 name a Hst) as (b & Hb & E1 & E2 & E3).
  destruct (H2 name b Hb) as (c & Hc & F1 & F2 & F3).
  exists c. split; [exact Hc|]. split_and!; congruence.
Qed.

Lemma store_step_invariants (st st' : store) :
  store_step st st' ->
  same_activities st st'
  /\ (no_duplicates st -> no_duplicates st')
  /\ (no_empty_email st -> no_empty_email st').
Proof.
  intros [|name a u Hst Hu Hnot|name a l1 x l2 Hst Hl].
  - split; [apply same_activities_refl|tauto].
  - split_and!.
    + now apply same_activities_insert.
    + intros Hinv. apply no_duplicates_insert; [exact Hinv|].
      apply NoDup_snoc_fresh; [|exact Hnot]. now apply no_duplicates_roster.
    + intros Hinv. apply no_empty_email_insert; [exact Hinv|].
      rewrite elem_of_app, list_elem_of_singleton.
      intros [H|H]; [exact (no_empty_email_roster st name Hinv H)|congruence].
  - split_and!.
    + now apply same_activities_insert.
    + intros Hinv. apply no_duplicates_insert; [exact Hinv|].
      pose proof (no_duplicates_roster st name Hinv) as Hnd. rewrite Hl in Hnd.
      apply NoDup_app in Hnd. destruct Hnd as (H1 & Hdisj & H2).
      apply NoDup_cons in H2. destruct H2 as [_ H2].
      apply NoDup_app. split_and!; [exact H1| |exact H2].
      intros y Hy Hy2. apply (Hdisj y Hy). now right.
    + intros Hinv. apply no_empty_email_insert; [exact Hinv|].
      pose proof (no_empty_email_roster st name Hinv) as Hr. rewrite Hl in Hr.
      rewrite elem_of_app in *. rewrite elem_of_cons in Hr. tauto.
Qed.

(** X15: over any sequence of requests, on any route and with any outcome,
    the store keeps its keys and, under each, the description, schedule and
    capacity; a store without duplicate emails stays without; and a store
    without an empty email stays without. *)
Theorem serve_keeps_invariants (db : char -> bool) (rs : list request) (st : store) :
  same_activities st (serve db rs st)
  /\ (no_duplicates st -> no_duplicates (serve db rs st))
  /\ (no_empty_email st -> no_empty_email (serve db rs st)).
Proof.
  revert st. induction rs as [|r rs IH]; intros st; cbn [serve].
  - split; [apply same_activities_refl|tauto].
  - destruct (store_step_invariants st _ (route_step db r st)) as (S1 & N1 & E1).
    destruct (IH (snd (route db r st))) as (S2 & N2 & E2).
    split_and!; [exact (same_activities_trans _ _ _ S1 S2)|tauto|tauto].
Qed.

(** ** Requests about different activities *)

Lemma signup_local (db : char -> bool) (name : str)
    (payload : option SignupRequest) (q : option str) (st : store)
    (other : str) (b : Activity) :
  other <> name ->
  signup_for_activity db name payload q (<[other := b]> st)
  = (fst (signup_for_activity db name payload q st),
     <[other := b]> (snd (signup_for_activity db name payload q st))).
Proof.
  intros Hne. rewrite !signup_run.
  rewrite (lookup_insert_ne st other name b Hne).
  rewrite (roster_insert_ne st other name b Hne).
  destruct (validate_activity_name db name) as [[]|e]; [|reflexivity].
  destruct (select_email payload q) as [u|]; [|reflexivity].
  destruct (st !! name) as [a|]; [|reflexivity].
  destruct (bool_decide (u ∈ roster st name)); [reflexivity|].
  cbn [fst snd]. f_equal. now apply insert_insert_ne.
Qed.

Lemma unregister_local (db : char -> bool) (name email : str) (st : store)
    (other : str) (b : Activity) :
  other <> name ->
  unregister_from_activity db name email (<[other := b]> st)
  = (fst (unregister_from_activity db name email st),
     <[other := b]> (snd (unregister_from_activity db name email st))).
Proof.
  intros Hne. rewrite !unregister_run.
  rewrite (lookup_insert_ne st other name b Hne).
  rewrite (roster_insert_ne st other name b Hne).
  destruct (validate_activity_name db name) as [[]|e]; [|reflexivity].
  destruct (st !! name) as [a|]; [|reflexivity].
  destruct (remove_first email (roster st name)); [|reflexivity].
  cbn [fst snd]. f_equal. now apply insert_insert_ne.
Qed.

Lemma route_local (db : char -> bool) (r : request) (name : str) (st : store)
    (other : str) (b : Activity) :
  target r = Some name -> other <> name ->
  fst (route db r (<[other := b]> st)) = fst (route db r st)
  /\ snd (route db r (<[other := b]> st)) = <[other := b]> (snd (route db r st)).
Proof.
  intros Ht Hne. destruct r as [| |n payload q|n email]; try discriminate;
    injection Ht as ->.
  - rewrite !(proj1 (route_signup _ _ _ _ _)), !(proj2 (route_signup _ _ _ _ _)).
    now rewrite (signup_local db name payload q st other b Hne).
  - rewrite !(proj1 (route_unregister _ _ _ _)), !(proj2 (route_unregister _ _ _ _)).
    now rewrite (unregister_local db name email st other b Hne).
Qed.

Lemma route_target_store (db : char -> bool) (r : request) (name : str) (st : store) :
  target r = Some name ->
  snd (route db r st) = st
  \/ exists b, snd (route db r st) = <[name := b]> st.
Proof.
  intros Ht. destruct r as [| |n payload q|n email]; try discriminate;
    injection Ht as ->.
  - rewrite (proj1 (route_signup db name payload q st)).
    destruct (signup_cases db name payload q st)
      as [e' Hv He Hrun | Hv Hsel Hrun | u Hv Hsel Hst Hrun
          | u a Hv Hsel Hst Hin Hrun | u a Hv Hsel Hst Hnot Hrun];
      rewrite Hrun; cbn [snd]; eauto.
  - rewrite (proj1 (route_unregister db name email st)).
    destruct (unregister_cases db name email st)
      as [e' Hv He Hrun | Hv Hst Hrun | a Hv Hst Hnot Hrun
          | a l1 l2 Hv Hst Hl Hnot Hrun];
      rewrite Hrun; cbn [snd]; eauto.
Qed.

(** X14: a signup or unregister about one activity and one about another
    activity commute: each is answered the same whether it comes first or
    second, and the store after the two is the same in either order. *)
Theorem requests_on_different_activities_commute (db : char -> bool)
    (r1 r2 : request) (n1 n2 : str) (st : store) :
  target r1 = Some n1 ->
  target r2 = Some n2 ->
  n1 <> n2 ->
  fst (route db r1 (snd (route db r2 st))) = fst (route db r1 st)
  /\ fst (route db r2 (snd (route db r1 st))) = fst (route db r2 st)
  /\ serve db [r1; r2] st = serve db [r2; r1] st.
Proof.
  intros H1 H2 Hne. cbn [serve].
  destruct (route_target_store db r1 n1 st H1) as [E1|[b1 E1]];
    destruct (route_target_store db r2 n2 st H2) as [E2|[b2 E2]].
  - rewrite !E1, !E2, !E1. now split_and!.
  - destruct (route_local db r1 n1 st n2 b2 H1 (not_eq_sym Hne)) as [F S].
    rewrite !E1, !E2, F, S, !E1. now split_and!.
  - destruct (route_local db r2 n2 st n1 b1 H2 Hne) as [F S].
    rewrite !E2, !E1, F, S, !E2. now split_and!.
  - destruct (route_local db r1 n1 st n2 b2 H1 (not_eq_sym Hne)) as [F1 S1].
    destruct (route_local db r2 n2 st n1 b1 H2 Hne) as [F2 S2].
    rewrite !E1, !E2, F1, S1, F2, S2, !E1, !E2.
    split_and!; [reflexivity..|]. now apply insert_insert_ne.
Qed.

(** ** The further properties on concrete requests *)

Lemma no_empty_email_map_Forall (st : store) :
  map_Forall (fun _ a => [] ∉ default [] (participants a)) st ->
  no_empty_email st.
Proof.
  intros Hall name a l Hst Hp. specialize (Hall name a Hst).
  cbv beta in Hall. now rewrite Hp in Hall.
Qed.

(** A new member joins the Chess Club of the defaults and leaves again. *)
Lemma signup_then_unregister_witness :
  snd (unregister_from_activity no_alnum_beyond_latin1 (lit "Chess Club")
         (lit "new@mergington.edu")
         (snd (signup_for_activity no_alnum_beyond_latin1 (lit "Chess Club")
                 None (Some (lit "new@mergington.edu")) embedded_defaults)))
  = embedded_defaults.
Proof.
  refine (proj1 (proj2 (proj2 (proj2 (signup_then_unregister
    no_alnum_beyond_latin1 embedded_defaults (lit "Chess Club")
    {| description := lit "Learn strategies and compete in chess tournaments";
       schedule := lit "Fridays, 3:30 PM - 5:00 PM";
       max_participants := 12;
       participants :=
         Some [lit "michael@mergington.edu"; lit "daniel@mergington.edu"] |}
    None (Some (lit "new@mergington.edu")) (lit "new@mergington.edu")
    _ _ _ _)))) _).
  - vm_compute. reflexivity.
  - vm_compute. reflexivity.
  - reflexivity.
  - by_evaluation.
  - now eexists.
Defined.

(** Michael leaves the Chess Club of the defaults and joins again. *)
Lemma unregister_then_signup_witness :
  exists l1 l2 : list (list N),
    roster embedded_defaults (lit "Chess Club")
    = l1 ++ lit "michael@mergington.edu" :: l2
    /\ ((lit "michael@mergington.edu" ∉ l2) ->
        roster (snd (signup_for_activity no_alnum_beyond_latin1 (lit "Chess Club")
                       None (Some (lit "michael@mergington.edu"))
                       (snd (unregister_from_activity no_alnum_beyond_latin1
                               (lit "Chess Club") (lit "michael@mergington.edu")
                               embedded_defaults))))
               (lit "Chess Club")
        = l1 ++ l2 ++ [lit "michael@mergington.edu"]).
Proof.
  destruct (unregister_then_signup no_alnum_beyond_latin1 embedded_defaults
              (lit "Chess Club")
              {| description :=
                   lit "Learn strategies and compete in chess tournaments";
                 schedule := lit "Fridays, 3:30 PM - 5:00 PM";
                 max_participants := 12;
                 participants :=
                   Some [lit "michael@mergington.edu";
                         lit "daniel@mergington.edu"] |}
              None (Some (lit "michael@mergington.edu"))
              (lit "michael@mergington.edu"))
    as (l1 & l2 & Hl & _ & Hfresh & _).
  - vm_compute. reflexivity.
  - vm_compute. reflexivity.
  - reflexivity.
  - by_evaluation.
  - exists l1, l2. split; [exact Hl|]. intros Hnot. exact (proj2 (Hfresh Hnot)).
Defined.

(** The same signup, sent twice. *)
Lemma signup_twice_witness :
  fst (signup_for_activity no_alnum_beyond_latin1 (lit "Chess Club") None
         (Some (lit "new@mergington.edu"))
         (snd (signup_for_activity no_alnum_beyond_latin1 (lit "Chess Club")
                 None (Some (lit "new@mergington.edu")) embedded_defaults)))
  = Raise already_signed_up.
Proof.
  refine (f_equal fst (signup_twice no_alnum_beyond_latin1 embedded_defaults
    (lit "Chess Club") None (Some (lit "new@mergington.edu"))
    (lit "new@mergington.edu") _ _ _)).
  - vm_compute. reflexivity.
  - reflexivity.
  - by_evaluation.
Defined.

(** The same unregister, sent twice. *)
Lemma unregister_twice_witness :
  fst (unregister_from_activity no_alnum_beyond_latin1 (lit "Chess Club")
         (lit "daniel@mergington.edu")
         (snd (unregister_from_activity no_alnum_beyond_latin1 (lit "Chess Club")
                 (lit "daniel@mergington.edu") embedded_defaults)))
  = Raise not_signed_up.
Proof.
  refine (f_equal fst (unregister_twice no_alnum_beyond_latin1 embedded_defaults
    (lit "Chess Club") (lit "daniel@mergington.edu") _ _ _)).
  - vm_compute. reflexivity.
  - by_evaluation.
  - by_evaluation.
Defined.

(** The defaults hold no empty email, and an unregister with one fails. *)
Lemma no_empty_email_preserved_witness :
  exists e : exception,
    unregister_from_activity no_alnum_beyond_latin1 (lit "Chess Club") []
      embedded_defaults
    = (Raise e, embedded_defaults).
Proof.
  refine (proj2 (proj2 (no_empty_email_preserved no_alnum_beyond_latin1
                          embedded_defaults _)) (lit "Chess Club")).
  apply no_empty_email_map_Forall. by_evaluation.
Defined.

(** A name of the defaults with a line break at its end. *)
Lemma validate_accepts_control_whitespace_witness :
  validate_activity_name no_alnum_beyond_latin1 (lit "Chess Club" ++ [10])
  = Return tt.
Proof.
  refine (proj2 (proj2 (validate_accepts_control_whitespace
                          no_alnum_beyond_latin1 (lit "Chess Club") _ _)
                   10 _)).
  - vm_compute. reflexivity.
  - vm_compute. reflexivity.
  - right. now left.
Defined.

(** A signup for the Chess Club and an unregister from the Gym Class. *)
Lemma requests_on_different_activities_commute_witness :
  serve no_alnum_beyond_latin1
    [PostSignup (lit "Chess Club") None (Some (lit "new@mergington.edu"));
     DeleteUnregister (lit "Gym Class") (lit "john@mergington.edu")]
    embedded_defaults
  = serve no_alnum_beyond_latin1
      [DeleteUnregister (lit "Gym Class") (lit "john@mergington.edu");
       PostSignup (lit "Chess Club") None (Some (lit "new@mergington.edu"))]
      embedded_defaults.
Proof.
  refine (proj2 (proj2 (requests_on_different_activities_commute
    no_alnum_beyond_latin1
    (PostSignup (lit "Chess Club") None (Some (lit "new@mergington.edu")))
    (DeleteUnregister (lit "Gym Class") (lit "john@mergington.edu"))
    (lit "Chess Club") (lit "Gym Class") embedded_defaults _ _ _))).
  - reflexivity.
  - reflexivity.
  - vm_compute. discriminate.
Defined.
